(** * anythrow: the [Option] container of [src/option/option.ts]

    A shallow embedding of the class [_Option] and of the module-level
    helpers around it, followed by the properties of its combinators.

    JavaScript objects are mutable and shared, so every [_Option] instance
    lives in a heap and is referred to by its location.  A method is a
    computation over the program state that either returns normally or
    throws a JavaScript value.  Callbacks handed to a combinator are
    arbitrary computations of the same kind: they may allocate Options,
    mutate any Option they can reach (the receiver included) and throw
    anything.  A callback has the type its TypeScript signature gives it:
    a predicate returns a boolean, a mapping function returns a value. *)

From Stdlib Require Import ZArith.
From stdpp Require Import base list strings.

Open Scope string_scope.
Open Scope list_scope.

(** ** Values *)

Definition loc := nat.
Definition pid := nat.

(** [enum OptionError] *)
Inductive OptionError : Type :=
| NoneValueAccessed
| NoneExpected
| NoneUnwrapped
| PredicateException.

(** Modelled from the spec: the instances of [AnyError] (module
    [../error]: a tagged error carrying a message, a reason code and an
    optional original cause, [undefined] when the constructor is given
    none), of [Result] (module [../result]: the sum type with variants [Ok]
    and [Err]) and of [PendingOption] (module [./index]: the asynchronous
    sibling that wraps an Option or a future of one) are the constructors
    [VAnyError], [VOk], [VErr] and [VPendingOption]; those classes are
    imported by [option.ts], not defined in it.

    The other constructors are the JavaScript values the combinators can
    meet.  Numbers are kept integral.  [VOption l] is a reference to the
    [_Option] instance stored at [l]; [VPromise p] is a reference to a
    native promise; [VTuple] is a two-element array. *)
Inductive Value : Type :=
| VUndefined
| VNull
| VBoolean (b : bool)
| VNumber (n : Z)
| VString (s : string)
| VError (message : string)
| VAnyError (message : string) (reason : OptionError) (originalError : Value)
| VOk (value : Value)
| VErr (error : Value)
| VOption (l : loc)
| VPromise (p : pid)
| VPendingOption (inner : Value)
| VTuple (first second : Value).

(** [type Nothing = typeof nothing]: the private field [#value] has type
    [T | Nothing].  The symbol [nothing] is private to the module, so no
    caller-supplied value is ever equal to it. *)
Inductive Slot : Type :=
| Nothing
| Held (v : Value).

(** [const isNothing = (x) => x === nothing] *)
Definition isNothing (x : Slot) : bool :=
  match x with
  | Nothing => true
  | Held _ => false
  end.

(** The two values of the field [[phantom]]: ["some"] and ["none"]. *)
Inductive Phantom : Type :=
| PSome
| PNone.

(** An instance of [class _Option]: the symbol-keyed field [[phantom]] and
    the private field [#value]. *)
Record Obj : Type := mkObj {
  phantom : Phantom;
  priv_value : Slot
}.

(** A reaction registered by [x.then((val) => { this.#setValue(val) }, noop)]:
    the promise it waits for, the receiver captured by the closure, and the
    promise that [then] returns. *)
Record Reaction : Type := mkReaction {
  source : pid;
  target : loc;
  derived : pid
}.

(** How a promise settles. *)
Inductive Settlement : Type :=
| Fulfilled (val : Value)
| Rejected (reason : Value).

(** ** Program state *)

(** [setValue_calls] is a history of the calls of [#setValue] (receiver and
    argument), oldest first; nothing reads it, it is there to count
    writes. *)
Record State : Type := mkState {
  heap : list Obj;
  setValue_calls : list (loc * Slot);
  reactions : list Reaction;
  next_promise : pid
}.

Definition set_heap (h : list Obj) (st : State) : State :=
  mkState h (setValue_calls st) (reactions st) (next_promise st).

Definition set_calls (c : list (loc * Slot)) (st : State) : State :=
  mkState (heap st) c (reactions st) (next_promise st).

Definition set_reactions (r : list Reaction) (st : State) : State :=
  mkState (heap st) (setValue_calls st) r (next_promise st).

(** ** Computations *)

(** [Fault] is a read or write through a location that holds no object; no
    JavaScript program reaches it, and [try]/[catch] does not see it. *)
Inductive Outcome (A : Type) : Type :=
| Normal (a : A)
| Thrown (e : Value)
| Fault.

Arguments Normal {A} a.
Arguments Thrown {A} e.
Arguments Fault {A}.

Definition M (A : Type) : Type := State -> Outcome A * State.

Definition ret {A} (a : A) : M A := fun st => (Normal a, st).

Definition throw {A} (e : Value) : M A := fun st => (Thrown e, st).

Definition bind {A B} (m : M A) (k : A -> M B) : M B :=
  fun st =>
    match m st with
    | (Normal a, st') => k a st'
    | (Thrown e, st') => (Thrown e, st')
    | (Fault, st') => (Fault, st')
    end.

(** [try { m } catch (e) { handler(e) }] *)
Definition try_catch {A} (m : M A) (handler : Value -> M A) : M A :=
  fun st =>
    match m st with
    | (Normal a, st') => (Normal a, st')
    | (Thrown e, st') => handler e st'
    | (Fault, st') => (Fault, st')
    end.

Declare Scope js_scope.
Delimit Scope js_scope with js.
Bind Scope js_scope with M.

Notation "x <- m ;; k" := (bind m (fun x => k))
  (at level 100, m at next level, k at level 200, right associativity)
  : js_scope.
Notation "m ;; k" := (bind m (fun _ => k))
  (at level 100, k at level 200, right associativity) : js_scope.

Open Scope js_scope.

(** *** Heap primitives *)

Definition deref (l : loc) : M Obj :=
  fun st =>
    match heap st !! l with
    | Some o => (Normal o, st)
    | None => (Fault, st)
    end.

Definition update (l : loc) (f : Obj -> Obj) : M unit :=
  fun st =>
    match heap st !! l with
    | Some o => (Normal tt, set_heap (<[l := f o]> (heap st)) st)
    | None => (Fault, st)
    end.

(** [this[phantom] = p] *)
Definition write_phantom (this : loc) (p : Phantom) : M unit :=
  update this (fun o => mkObj p (priv_value o)).

(** [this.#value = v] *)
Definition write_priv_value (this : loc) (v : Slot) : M unit :=
  update this (fun o => mkObj (phantom o) v).

(** Allocation of an instance with the given field initialisers. *)
Definition alloc (o : Obj) : M loc :=
  fun st => (Normal (length (heap st)), set_heap (heap st ++ [o]) st).

Definition record_setValue (this : loc) (v : Slot) : M unit :=
  fun st => (Normal tt, set_calls (setValue_calls st ++ [(this, v)]) st).

(** ** Collaborators from other modules *)

(** Modelled from the spec: [isPromise] of [../__internal], the type guard
    that tells a future argument from a concrete one. *)
Definition isPromise (x : Value) : bool :=
  match x with
  | VPromise _ => true
  | _ => false
  end.

(** Modelled from the spec: [isResult] of [../__internal], the type guard
    for "is this a Result". *)
Definition isResult (x : Value) : bool :=
  match x with
  | VOk _ | VErr _ => true
  | _ => false
  end.

(** Modelled from the spec: the constructor [ok] of [../result]. *)
Definition ok (v : Value) : Value := VOk v.

(** Modelled from the spec: the constructor [err] of [../result]. *)
Definition err (e : Value) : Value := VErr e.

(** Modelled from the spec: the accessor [isOk()] of a [Result]. *)
Definition isOk (r : Value) : bool :=
  match r with
  | VOk _ => true
  | _ => false
  end.

(** Modelled from the spec: the accessor [.value] of an [Ok]. *)
Definition result_value (r : Value) : Value :=
  match r with
  | VOk v => v
  | _ => VUndefined
  end.

(** Modelled from the spec: the accessor [.error] of an [Err]. *)
Definition result_error (r : Value) : Value :=
  match r with
  | VErr e => e
  | _ => VUndefined
  end.

(** Modelled from the spec: [pendingOption] of [./index], the lifting
    constructor of the asynchronous sibling. *)
Definition pendingOption (x : Value) : Value := VPendingOption x.

(** Modelled from the spec: [noop] of [../__internal], the no-op failure
    handler for fire-and-forget rejected futures. *)
Definition noop (reason : Value) : M unit := ret tt.

(** Modelled from the spec: [e instanceof AnyError], the test for "already
    a taxonomy error". *)
Definition instanceof_AnyError (e : Value) : bool :=
  match e with
  | VAnyError _ _ _ => true
  | _ => false
  end.

Section Externals.

(** [stringify] of [../__internal]: total, never throws. *)
Variable stringify : Value -> string.

(** Whether [class AnyError] extends the built-in [Error]. *)
Variable AnyError_extends_Error : bool.

(** [e instanceof Error] *)
Definition instanceof_Error (e : Value) : bool :=
  match e with
  | VError _ => true
  | VAnyError _ _ _ => AnyError_extends_Error
  | _ => false
  end.

(** [const mkAnyError = (msg, reason, e) =>
      new AnyError(msg, reason,
                   e instanceof Error ? e : new Error(stringify(e)))] *)
Definition mkAnyError (msg : string) (reason : OptionError) (e : Value)
  : Value :=
  VAnyError msg reason
    (if instanceof_Error e then e else VError (stringify e)).

End Externals.

(** [export function isOption(x)]: [x instanceof _Option] *)
Definition isOption (x : Value) : bool :=
  match x with
  | VOption _ => true
  | _ => false
  end.

(** The method call [y.m()] on a value [y] that its TypeScript type says is
    an Option.  A receiver that is not an [_Option] instance is outside the
    typed programs; like a dangling location it is a [Fault]. *)
Definition call {A} (y : Value) (m : loc -> M A) : M A :=
  match y with
  | VOption l => m l
  | _ => fun st => (Fault, st)
  end.

(** ** The class [_Option] *)

Module _Option.

(** [#setValue(value: T | Nothing): void] *)
Definition setValue (this : loc) (value : Slot) : M unit :=
  write_phantom this (if isNothing value then PNone else PSome);;
  write_priv_value this value;;
  record_setValue this value.

(** [#replaceValue(newValue: T | Nothing): T | Nothing] *)
Definition replaceValue (this : loc) (newValue : Slot) : M Slot :=
  o <- deref this;;
  let oldValue := priv_value o in
  setValue this newValue;;
  ret oldValue.

(** [#takeValue(): T | Nothing] *)
Definition takeValue (this : loc) : M Slot :=
  replaceValue this Nothing.

(** [private constructor(value?: T)], after the field initialisers
    [[phantom] = "none"] and [#value = nothing].  The list is the
    [arguments] object. *)
Definition constructor (arguments : list Value) : M loc :=
  this <- alloc (mkObj PNone Nothing);;
  match arguments with
  | value :: _ => setValue this (Held value)
  | [] => ret tt
  end;;
  ret this.

(** [static some<T>(value: T)] and the exported [some] *)
Definition some (value : Value) : M Value :=
  this <- constructor [value];;
  ret (VOption this).

(** [static none<T>()] and the exported [none] *)
Definition none : M Value :=
  this <- constructor [];;
  ret (VOption this).

(** [get value(): T] *)
Definition value (this : loc) : M Value :=
  o <- deref this;;
  match priv_value o with
  | Nothing =>
      throw (VAnyError "`value` is accessed on `None`" NoneValueAccessed
                       VUndefined)
  | Held v => ret v
  end.

(** [isNone(): this is None<T>] *)
Definition isNone (this : loc) : M bool :=
  o <- deref this;;
  ret (isNothing (priv_value o)).

(** [isSome(): this is Some<T>] *)
Definition isSome (this : loc) : M bool :=
  b <- isNone this;;
  ret (negb b).

(** [andThen<U>(f: (x: T) => MaybePromise<Option<U>>)] *)
Definition andThen (this : loc) (f : Value -> M Value) : M Value :=
  b <- isNone this;;
  if b then none
  else
    try_catch
      (x <- value this;;
       option <- f x;;
       ret (if isPromise option then pendingOption option else option))
      (fun _ => none).

(** [clone(): Option<T>] *)
Definition clone (this : loc) : M Value :=
  b <- isNone this;;
  if b then none else (x <- value this;; some x).

(** [filter(f: (x: T) => boolean): Option<T>] *)
Definition filter (this : loc) (f : Value -> M bool) : M Value :=
  b <- isNone this;;
  if b then none
  else
    try_catch
      (x <- value this;;
       c <- f x;;
       if c then (y <- value this;; some y) else none)
      (fun _ => none).

(** [getOrInsert(x: T): T] *)
Definition getOrInsert (this : loc) (x : Value) : M Value :=
  b <- isNone this;;
  (if b then setValue this (Held x) else ret tt);;
  value this.

(** [insert(x: T): T] *)
Definition insert (this : loc) (x : Value) : M Value :=
  setValue this (Held x);;
  value this.

(** [inspect(f: (x: T) => unknown): Option<T>] *)
Definition inspect (this : loc) (f : Value -> M Value) : M Value :=
  b <- isSome this;;
  (if b
   then try_catch (x <- value this;; _ <- f x;; ret tt) (fun _ => ret tt)
   else ret tt);;
  x <- value this;;
  some x.

(** [isNoneOr(f: (x: T) => boolean): boolean] *)
Definition isNoneOr (this : loc) (f : Value -> M bool) : M bool :=
  b <- isNone this;;
  if b then ret true
  else try_catch (x <- value this;; f x) (fun _ => ret false).

(** [isSomeAnd(f: (x: T) => boolean)] *)
Definition isSomeAnd (this : loc) (f : Value -> M bool) : M bool :=
  b <- isSome this;;
  if b then ret true
  else try_catch (x <- value this;; f x) (fun _ => ret false).

(** [map<U>(f: (x: T) => U): Option<U>] *)
Definition map (this : loc) (f : Value -> M Value) : M Value :=
  b <- isNone this;;
  if b then none
  else
    try_catch (x <- value this;; y <- f x;; some y) (fun _ => none).

(** The continuation of [replace]:
    [x.then((val) => { this.#setValue(val) }, noop)].  Calling [then]
    only registers the reaction and returns the derived promise; the
    handlers run later, when [x] has settled. *)
Definition then_setValue (x : pid) (this : loc) : M pid :=
  fun st =>
    (Normal (next_promise st),
     mkState (heap st) (setValue_calls st)
             (reactions st ++ [mkReaction x this (next_promise st)])
             (S (next_promise st))).

(** [replace(x: MaybePromise<T>)] *)
Definition replace (this : loc) (x : Value) : M Value :=
  match x with
  | VPromise p =>
      promise <- then_setValue p this;;
      snapshot <- clone this;;
      ret (VTuple snapshot (VPromise promise))
  | _ =>
      value <- replaceValue this (Held x);;
      match value with
      | Nothing => none
      | Held v => some v
      end
  end.

(** [take(): Option<T>] *)
Definition take (this : loc) : M Value :=
  b <- isNone this;;
  if b then none
  else
    value <- takeValue this;;
    match value with
    | Nothing => none
    | Held v => some v
    end.

(** [takeIf(f: (x: T) => boolean): Option<T>] *)
Definition takeIf (this : loc) (f : Value -> M bool) : M Value :=
  b <- isNone this;;
  if b then none
  else
    try_catch
      (x <- value this;;
       c <- f x;;
       if c
       then
         value <- takeValue this;;
         match value with
         | Nothing => none
         | Held v => some v
         end
       else none)
      (fun _ => none).

(** [transposeResult<V, E>(this: _Option<Result<V, E>>)] *)
Definition transposeResult (this : loc) : M Value :=
  b <- isNone this;;
  c <- (if b then ret true
        else (x <- value this;; ret (negb (isResult x))));;
  if c then (n <- none;; ret (ok n))
  else
    r <- value this;;
    if isOk r
    then (r' <- value this;; s <- some (result_value r');; ret (ok s))
    else (r' <- value this;; ret (err (result_error r'))).

(** [unwrap(): T] *)
Definition unwrap (this : loc) : M Value :=
  b <- isSome this;;
  if b then value this
  else throw (VAnyError "`unwrap` is called on `None`" NoneUnwrapped
                        VUndefined).

(** [expect(msg?: string): T]; [None] is a call without the argument. *)
Definition expect (this : loc) (msg : option string) : M Value :=
  b <- isSome this;;
  if b then value this
  else
    throw (VAnyError
             (match msg with
              | Some m => m
              | None => "`expect` is called on `None`"
              end)
             NoneExpected VUndefined).

(** [flatten<U>(this: _Option<Option<U>>): Option<U>] *)
Definition flatten (this : loc) : M Value :=
  b <- isNone this;;
  if b then none
  else
    x <- value this;;
    if isOption x then (y <- value this;; call y clone)
    else (y <- value this;; some y).

(** [mapOr<U>(def: U, f: (x: T) => U): U] *)
Definition mapOr (this : loc) (def : Value) (f : Value -> M Value) : M Value :=
  b <- isNone this;;
  if b then ret def
  else try_catch (x <- value this;; f x) (fun _ => ret def).

(** [okOr<E>(y: E): Result<T, E>] *)
Definition okOr (this : loc) (y : Value) : M Value :=
  b <- isSome this;;
  if b then (x <- value this;; ret (ok x)) else ret (err y).

(** [okOrElse<E>(mkErr: () => E): Result<T, E>] *)
Definition okOrElse (this : loc) (mkErr : M Value) : M Value :=
  b <- isSome this;;
  if b then (x <- value this;; ret (ok x)) else (e <- mkErr;; ret (err e)).

(** [orElse(f: () => Option<T>): Option<T>] *)
Definition orElse (this : loc) (f : M Value) : M Value :=
  try_catch
    (b <- isSome this;; if b then (x <- value this;; some x) else f)
    (fun _ => none).

(** [toPendingOption(): PendingOption<T>] *)
Definition toPendingOption (this : loc) : M Value :=
  c <- clone this;;
  ret (pendingOption c).

(** [unwrapOr(def: T): T] *)
Definition unwrapOr (this : loc) (def : Value) : M Value :=
  b <- isSome this;;
  if b then value this else ret def.

Section Externals.

Variable stringify : Value -> string.
Variable AnyError_extends_Error : bool.

(** [getOrInsertWith(f: () => T): T] *)
Definition getOrInsertWith (this : loc) (f : M Value) : M Value :=
  b <- isNone this;;
  (if b
   then
     try_catch
       (x <- f;; setValue this (Held x))
       (fun e =>
          throw (mkAnyError stringify AnyError_extends_Error
                   "getOrInsertWith callback threw an exception"
                   PredicateException e))
   else ret tt);;
  value this.

(** [mapOrElse<U>(mkDef: () => U, f: (x: T) => U): U] *)
Definition mapOrElse (this : loc) (mkDef : M Value) (f : Value -> M Value)
  : M Value :=
  let makeDefault :=
    try_catch mkDef
      (fun e =>
         throw (mkAnyError stringify AnyError_extends_Error
                  "mapOrElse `mkDef` callback threw an exception"
                  PredicateException e)) in
  b <- isNone this;;
  if b then makeDefault
  else
    try_catch
      (x <- value this;; f x)
      (fun e => if instanceof_AnyError e then throw e else makeDefault).

(** [match<U, F = U>(f: (x: T) => U, g: () => F): U | F] *)
Definition match_ (this : loc) (f : Value -> M Value) (g : M Value)
  : M Value :=
  try_catch
    (b <- isSome this;; if b then (x <- value this;; f x) else g)
    (fun e =>
       if instanceof_AnyError e then throw e
       else
         throw (mkAnyError stringify AnyError_extends_Error
                  "one of match predicates threw an exception"
                  PredicateException e)).

(** [unwrapOrElse(mkDef: () => T): T] *)
Definition unwrapOrElse (this : loc) (mkDef : M Value) : M Value :=
  try_catch
    (b <- isSome this;; if b then value this else mkDef)
    (fun e =>
       if instanceof_AnyError e then throw e
       else
         throw (mkAnyError stringify AnyError_extends_Error
                  "unwrapOrElse callback threw an exception"
                  PredicateException e)).

End Externals.

Section Sibling.

(** Modelled from the spec: the combinators [and], [or] and [xor] of the
    asynchronous sibling [PendingOption] (module [./index]), applied to a
    lifted Option and a future. *)
Variable pending_and pending_or pending_xor : Value -> Value -> M Value.

(** [and<U>(x: MaybePromise<Option<U>>): MaybePendingOption<U>] *)
Definition and (this : loc) (x : Value) : M Value :=
  if isPromise x then (p <- toPendingOption this;; pending_and p x)
  else
    b <- isNone this;;
    if b then none else ret x.

(** [or(x: MaybePromise<Option<T>>): MaybePendingOption<T>] *)
Definition or (this : loc) (x : Value) : M Value :=
  if isPromise x then (p <- toPendingOption this;; pending_or p x)
  else
    b <- isSome this;;
    if b then (v <- value this;; some v) else ret x.

(** [xor(y: MaybePromise<Option<T>>): MaybePendingOption<T>] *)
Definition xor (this : loc) (y : Value) : M Value :=
  if isPromise y then (p <- toPendingOption this;; pending_xor p y)
  else
    b1 <- isNone this;;
    c1 <- (if b1 then call y isSome else ret false);;
    if c1 then (v <- call y value;; some v)
    else
      b2 <- isSome this;;
      c2 <- (if b2 then call y isNone else ret false);;
      if c2 then (v <- value this;; some v) else none.

End Sibling.

Section Rendering.

(** [stringify] of [../__internal] on a value, and on the private symbol
    [nothing]. *)
Variable stringify : Value -> string.
Variable stringify_nothing : string.

(** [toString(): string]; the argument of [stringify] is the field
    [#value] itself. *)
Definition toString (this : loc) : M string :=
  b <- isNone this;;
  if b then ret "None"
  else
    o <- deref this;;
    ret ("Some { "
         +:+ match priv_value o with
             | Held v => stringify v
             | Nothing => stringify_nothing
             end
         +:+ " }").

End Rendering.

Section Awaitable.

(** The promise runtime: [Promise.resolve(x)], and [p.then(some)] on the
    promise it returns.  Both return a promise at once; [some] runs later,
    when [p] has resolved. *)
Variable Promise_resolve : Value -> M Value.
Variable then_some : Value -> M Value.

(** [transposeAwaitable<V>(this: _Option<PromiseLike<V>>)] *)
Definition transposeAwaitable (this : loc) : M Value :=
  b <- isNone this;;
  if b then (n <- none;; ret (pendingOption n))
  else
    x <- value this;;
    p <- Promise_resolve x;;
    q <- then_some p;;
    ret (pendingOption q).

End Awaitable.

(** The reaction body: the fulfilment handler is
    [(val) => { this.#setValue(val) }], the rejection handler is [noop]. *)
Definition run_reaction (r : Reaction) (s : Settlement) : M unit :=
  match s with
  | Fulfilled val => setValue (target r) (Held val)
  | Rejected reason => noop reason
  end.

End _Option.

(** ** The promise runtime *)

(** Settling promise [x]: every reaction registered on [x] runs, in
    registration order, each to completion, and is then discarded. *)
Definition settle (x : pid) (s : Settlement) (st : State) : State :=
  let due := List.filter (fun r => Nat.eqb (source r) x) (reactions st) in
  let rest :=
    List.filter (fun r => negb (Nat.eqb (source r) x)) (reactions st) in
  foldl (fun st' r => snd (_Option.run_reaction r s st'))
        (set_reactions rest st) due.

(** ** Vocabulary of the statements *)

(** The location the next allocation returns. *)
Definition fresh (st : State) : loc := length (heap st).

(** An instance whose two fields agree on the slot [s]. *)
Definition sync (s : Slot) : Obj :=
  mkObj (if isNothing s then PNone else PSome) s.

(** The state after one call [#setValue(s)] on the instance at [l]. *)
Definition written (l : loc) (s : Slot) (st : State) : State :=
  mkState (<[l := sync s]> (heap st)) (setValue_calls st ++ [(l, s)])
          (reactions st) (next_promise st).

(** The state after [none()]. *)
Definition with_none (st : State) : State :=
  set_heap (heap st ++ [sync Nothing]) st.

(** The state after [some(v)]. *)
Definition with_some (v : Value) (st : State) : State :=
  mkState (heap st ++ [sync (Held v)])
          (setValue_calls st ++ [(fresh st, Held v)])
          (reactions st) (next_promise st).

(** The calls of [#setValue] whose receiver is [l]. *)
Definition calls_on (l : loc) (st : State) : list Slot :=
  omap (fun c => if Nat.eqb (fst c) l then Some (snd c) else None)
       (setValue_calls st).

(** The discriminant field says ["some"] exactly when the slot holds a
    value. *)
Definition synced (o : Obj) : Prop :=
  phantom o = PSome <-> priv_value o <> Nothing.

(** Every instance of the heap is synced. *)
Definition Inv (st : State) : Prop := Forall synced (heap st).

(** [m] keeps [P]: whatever the outcome, the state it leaves satisfies [P]
    if the state it started from did. *)
Definition keeps {A} (P : State -> Prop) (m : M A) : Prop :=
  forall st, P st -> P (snd (m st)).

(** A sequence of writes to the instance at [l], each by [#setValue]. *)
Fixpoint write_all (l : loc) (ws : list Slot) (st : State) : State :=
  match ws with
  | [] => st
  | w :: ws' => write_all l ws' (snd (_Option.setValue l w st))
  end.

(** The state after [clone()] of an Option whose slot is [s]. *)
Definition with_copy (s : Slot) (st : State) : State :=
  match s with
  | Nothing => with_none st
  | Held v => with_some v st
  end.

(** The state after [x.then(...)] has registered the reaction [r]. *)
Definition registered (r : Reaction) (st : State) : State :=
  mkState (heap st) (setValue_calls st) (reactions st ++ [r])
          (S (next_promise st)).

(** The computation ended normally with a reference to an empty Option. *)
Definition yields_empty (r : Outcome Value * State) : Prop :=
  exists l, fst r = Normal (VOption l)
            /\ heap (snd r) !! l = Some (mkObj PNone Nothing).

(** Whenever the Option [o] holds a value, the callback [f] throws when it
    is applied to that value in state [st]. *)
Definition throws_on {A} (f : Value -> M A) (o : Obj) (st : State) : Prop :=
  forall v, priv_value o = Held v ->
            exists e st1, f v st = (Thrown e, st1).

(** The instance at [l] is [o]. *)
Definition holds (l : loc) (o : Obj) (st : State) : Prop :=
  heap st !! l = Some o.

(** Every public operation of the class that is not one of the mutating ones
    ([insert], [getOrInsert], [getOrInsertWith], [replace] with a value,
    [take], [takeIf]) keeps [P], given that the callbacks, the sibling's
    combinators and the promise runtime it is handed keep [P].  The
    operations are the two constructors, the getter [value] and the 28
    other methods of the class, [replace] counted with its promise
    overload. *)
Definition kept_by_readers (P : State -> Prop) : Prop :=
  (forall this, keeps P (_Option.isNone this))
  /\ (forall this, keeps P (_Option.isSome this))
  /\ (forall this, keeps P (_Option.value this))
  /\ (forall this, keeps P (_Option.unwrap this))
  /\ (forall this msg, keeps P (_Option.expect this msg))
  /\ (forall this def, keeps P (_Option.unwrapOr this def))
  /\ (forall this, keeps P (_Option.clone this))
  /\ (forall this, keeps P (_Option.toPendingOption this))
  /\ (forall this y, keeps P (_Option.okOr this y))
  /\ (forall this, keeps P (_Option.flatten this))
  /\ (forall this, keeps P (_Option.transposeResult this))
  /\ (forall this x, keeps P (_Option.replace this (VPromise x)))
  /\ (forall this f,
        (forall v, keeps P (f v)) -> keeps P (_Option.map this f))
  /\ (forall this f,
        (forall v, keeps P (f v)) -> keeps P (_Option.filter this f))
  /\ (forall this f,
        (forall v, keeps P (f v)) -> keeps P (_Option.andThen this f))
  /\ (forall this f,
        (forall v, keeps P (f v)) -> keeps P (_Option.inspect this f))
  /\ (forall this f,
        (forall v, keeps P (f v)) -> keeps P (_Option.isNoneOr this f))
  /\ (forall this f, keeps P (_Option.isSomeAnd this f))
  /\ (forall this def f,
        (forall v, keeps P (f v)) -> keeps P (_Option.mapOr this def f))
  /\ (forall this f, keeps P f -> keeps P (_Option.orElse this f))
  /\ (forall this f, keeps P f -> keeps P (_Option.okOrElse this f))
  /\ (forall stringify ext this mkDef f,
        keeps P mkDef -> (forall v, keeps P (f v)) ->
        keeps P (_Option.mapOrElse stringify ext this mkDef f))
  /\ (forall stringify ext this f g,
        (forall v, keeps P (f v)) -> keeps P g ->
        keeps P (_Option.match_ stringify ext this f g))
  /\ (forall stringify ext this mkDef,
        keeps P mkDef ->
        keeps P (_Option.unwrapOrElse stringify ext this mkDef))
  /\ (forall pending this x,
        (forall p y, keeps P (pending p y)) ->
        keeps P (_Option.and pending this x)
        /\ keeps P (_Option.or pending this x)
        /\ keeps P (_Option.xor pending this x))
  /\ (forall stringify stringify_nothing this,
        keeps P (_Option.toString stringify stringify_nothing this))
  /\ (forall Promise_resolve then_some this,
        (forall x, keeps P (Promise_resolve x)) ->
        (forall p, keeps P (then_some p)) ->
        keeps P (_Option.transposeAwaitable Promise_resolve then_some this))
  /\ (forall v, keeps P (_Option.some v))
  /\ keeps P _Option.none.

(** ** Sample programs *)

(** The state of a program that has not created any Option yet. *)
Definition empty_state : State := mkState [] [] [] 0.

(** The state after [const x = some(2)]; [x] is at location [0]. *)
Definition x_is_some_2 : State := snd (_Option.some (VNumber 2) empty_state).

(** The state after [const y = none()]; [y] is at location [0]. *)
Definition y_is_none : State := snd (_Option.none empty_state).

(** The state after [const x = some(ok(2))]. *)
Definition x_is_some_ok_2 : State :=
  snd (_Option.some (VOk (VNumber 2)) empty_state).

(** The state after [const y = some(err("error"))]. *)
Definition y_is_some_err : State :=
  snd (_Option.some (VErr (VString "error")) empty_state).

(** [n => n > 0] *)
Definition is_positive (n : Value) : M bool :=
  ret (match n with VNumber z => (0 <? z)%Z | _ => false end).

(** [n => n < 0] *)
Definition is_negative (n : Value) : M bool :=
  ret (match n with VNumber z => (z <? 0)%Z | _ => false end).

(** [_ => { throw new Error() }] *)
Definition throws_Error {A} (_ : Value) : M A := throw (VError "").

(** [n => n * 2] *)
Definition double (n : Value) : M Value :=
  ret (match n with VNumber z => VNumber (z * 2) | _ => VUndefined end).

(** A [stringify] for the sample programs: strings print as themselves. *)
Definition sample_stringify (x : Value) : string :=
  match x with
  | VString s => s
  | _ => "[value]"
  end.

(** The error [unwrap()] throws on an empty Option. *)
Definition NoneUnwrapped_error : Value :=
  VAnyError "`unwrap` is called on `None`" NoneUnwrapped VUndefined.

(** The state after [const x = some(2); const y = none()]: [x] is at
    location [0] and [y] at location [1]. *)
Definition x_some_2_y_none : State := snd (_Option.none x_is_some_2).

(** The state after [const x = some(some(6))]: the inner Option is at
    location [0] and [x] at location [1]. *)
Definition x_is_some_some_6 : State :=
  snd (_Option.some (VOption 0) (snd (_Option.some (VNumber 6) empty_state))).

(** A sibling combinator for the sample programs: it returns the lifted
    receiver. *)
Definition sample_pending (p x : Value) : M Value := ret p.

(** [() => 5] *)
Definition five : M Value := ret (VNumber 5).

(** [_ => { x.take(); return true }], for the Option [x] at location [0]. *)
Definition takes_then_true (_ : Value) : M bool :=
  _Option.take 0;; ret true.

(** [_ => x.take()], for the Option [x] at location [0]. *)
Definition takes_it (_ : Value) : M Value := _Option.take 0.

(** The state after [const x = some(2)] followed by [x.take()]: [x], at
    location [0], is empty and the Option [take] returned is at
    location [1]. *)
Definition x_was_taken : State := snd (_Option.take 0 x_is_some_2).

(** ** Running the primitives *)

Section Runs.

Context {A B : Type}.

Lemma bind_normal (m : M A) (k : A -> M B) st a st' :
  m st = (Normal a, st') -> bind m k st = k a st'.
Proof. intros H. unfold bind. now rewrite H. Qed.

Lemma bind_thrown (m : M A) (k : A -> M B) st e st' :
  m st = (Thrown e, st') -> bind m k st = (Thrown e, st').
Proof. intros H. unfold bind. now rewrite H. Qed.

Lemma try_catch_normal (m : M A) (h : Value -> M A) st a st' :
  m st = (Normal a, st') -> try_catch m h st = (Normal a, st').
Proof. intros H. unfold try_catch. now rewrite H. Qed.

Lemma try_catch_thrown (m : M A) (h : Value -> M A) st e st' :
  m st = (Thrown e, st') -> try_catch m h st = h e st'.
Proof. intros H. unfold try_catch. now rewrite H. Qed.

End Runs.

Lemma deref_run l st o :
  heap st !! l = Some o -> deref l st = (Normal o, st).
Proof. intros H. unfold deref. now rewrite H. Qed.

Lemma isNone_run this st o :
  heap st !! this = Some o ->
  _Option.isNone this st = (Normal (isNothing (priv_value o)), st).
Proof.
  intros H. unfold _Option.isNone.
  now rewrite (bind_normal _ _ _ _ _ (deref_run _ _ _ H)).
Qed.

Lemma isSome_run this st o :
  heap st !! this = Some o ->
  _Option.isSome this st = (Normal (negb (isNothing (priv_value o))), st).
Proof.
  intros H. unfold _Option.isSome.
  now rewrite (bind_normal _ _ _ _ _ (isNone_run _ _ _ H)).
Qed.

Lemma value_held this st o v :
  heap st !! this = Some o -> priv_value o = Held v ->
  _Option.value this st = (Normal v, st).
Proof.
  intros H Hv. unfold _Option.value.
  rewrite (bind_normal _ _ _ _ _ (deref_run _ _ _ H)). now rewrite Hv.
Qed.

Lemma value_nothing this st o :
  heap st !! this = Some o -> priv_value o = Nothing ->
  _Option.value this st
  = (Thrown (VAnyError "`value` is accessed on `None`" NoneValueAccessed
                       VUndefined), st).
Proof.
  intros H Hv. unfold _Option.value.
  rewrite (bind_normal _ _ _ _ _ (deref_run _ _ _ H)). now rewrite Hv.
Qed.

Lemma setValue_run this s st o :
  heap st !! this = Some o ->
  _Option.setValue this s st = (Normal tt, written this s st).
Proof.
  intros H. pose proof (lookup_lt_Some _ _ _ H) as Hlt.
  unfold _Option.setValue, write_phantom, write_priv_value, update,
    record_setValue, bind, written, sync, set_heap, set_calls.
  rewrite H. cbn. rewrite list_lookup_insert_eq by exact Hlt. cbn.
  now rewrite list_insert_insert_eq.
Qed.

Lemma setValue_fault this s st :
  heap st !! this = None -> _Option.setValue this s st = (Fault, st).
Proof.
  intros H.
  unfold _Option.setValue, write_phantom, update, bind. now rewrite H.
Qed.

Lemma none_run st :
  _Option.none st = (Normal (VOption (fresh st)), with_none st).
Proof. reflexivity. Qed.

Lemma some_run v st :
  _Option.some v st = (Normal (VOption (fresh st)), with_some v st).
Proof.
  unfold _Option.some, _Option.constructor, alloc, bind, ret.
  assert (Hl : heap (set_heap (heap st ++ [mkObj PNone Nothing]) st)
               !! length (heap st) = Some (mkObj PNone Nothing)).
  { cbn. now rewrite list_lookup_middle. }
  rewrite (setValue_run _ (Held v) _ _ Hl).
  unfold written, with_some, fresh. cbn. f_equal. f_equal.
  replace (length (heap st)) with (length (heap st) + 0) at 1 by lia.
  now rewrite insert_app_r.
Qed.

(** ** Lookups in the states of the statements *)

Lemma lookup_with_none st l o :
  heap st !! l = Some o -> heap (with_none st) !! l = Some o.
Proof. intros H. cbn. now apply lookup_app_l_Some. Qed.

Lemma lookup_with_some v st l o :
  heap st !! l = Some o -> heap (with_some v st) !! l = Some o.
Proof. intros H. cbn. now apply lookup_app_l_Some. Qed.

Lemma lookup_fresh_with_none st :
  heap (with_none st) !! fresh st = Some (sync Nothing).
Proof. cbn. unfold fresh. now rewrite list_lookup_middle. Qed.

Lemma lookup_fresh_with_some v st :
  heap (with_some v st) !! fresh st = Some (sync (Held v)).
Proof. cbn. unfold fresh. now rewrite list_lookup_middle. Qed.

Lemma lookup_written_eq l s st o :
  heap st !! l = Some o -> heap (written l s st) !! l = Some (sync s).
Proof.
  intros H. cbn. apply list_lookup_insert_eq. eapply lookup_lt_Some, H.
Qed.

Lemma lookup_written_ne l l' s st :
  l <> l' -> heap (written l s st) !! l' = heap st !! l'.
Proof. intros H. cbn. now apply list_lookup_insert_ne. Qed.

Lemma fresh_not_live st l o : heap st !! l = Some o -> l <> fresh st.
Proof. intros H%lookup_lt_Some. unfold fresh. lia. Qed.

Create HintDb js discriminated.

#[local] Hint Resolve lookup_with_none lookup_with_some lookup_fresh_with_none
  lookup_fresh_with_some lookup_written_eq : js.

(** Symbolic execution of a method body: unfold the sequencing, then run
    the primitives whose receiver is known to be live. *)
Ltac js_red :=
  cbv beta iota delta [bind try_catch ret throw noop];
  cbn [isNothing negb sync priv_value phantom isResult isOk isPromise
       result_value result_error].

Ltac js_run :=
  js_red;
  repeat
    (first
       [ erewrite isNone_run by eauto with js
       | erewrite isSome_run by eauto with js
       | erewrite value_held by eauto with js
       | erewrite value_nothing by eauto with js
       | erewrite setValue_run by eauto with js
       | erewrite deref_run by eauto with js
       | rewrite none_run
       | rewrite some_run
       | match goal with H : priv_value _ = _ |- _ => rewrite H end
       | match goal with H : _ = (_, _) |- _ => rewrite H end ];
     js_red).

(** ** Construction and unwrapping *)

(** C8.  For every value [v], [null] and [undefined] included, [some(v)]
    returns a new Option that reports occupied ([isSome()] is [true],
    [isNone()] is [false]) and whose [unwrap()] returns exactly [v] without
    throwing; none of the three queries changes the state. *)
Theorem some_is_occupied_and_unwraps (v : Value) (st : State) :
  let this := fresh st in
  let st' := with_some v st in
  _Option.some v st = (Normal (VOption this), st')
  /\ _Option.isSome this st' = (Normal true, st')
  /\ _Option.isNone this st' = (Normal false, st')
  /\ _Option.unwrap this st' = (Normal v, st').
Proof.
  intros this st'. subst this st'.
  pose proof (lookup_fresh_with_some v st) as Hl.
  split; [|split; [|split]].
  - apply some_run.
  - now rewrite (isSome_run _ _ _ Hl).
  - now rewrite (isNone_run _ _ _ Hl).
  - unfold _Option.unwrap. js_run. reflexivity.
Qed.

(** ** The examples of the documentation comments *)

(** [x.map(n => n * 2)] is [some(4)]. *)
Example map_example :
  _Option.map 0 double x_is_some_2
  = (Normal (VOption 1), with_some (VNumber 4) x_is_some_2).
Proof. reflexivity. Qed.

(** [x.filter(n => n > 0)] is [some(2)] and [x.filter(n => n < 0)] is
    [none()]. *)
Example filter_example :
  _Option.filter 0 is_positive x_is_some_2
  = (Normal (VOption 1), with_some (VNumber 2) x_is_some_2)
  /\ _Option.filter 0 is_negative x_is_some_2
     = (Normal (VOption 1), with_none x_is_some_2).
Proof. split; reflexivity. Qed.

(** [y.getOrInsert(5)] is [5] and leaves [y] as [some(5)]; a second call
    returns [5] and writes nothing. *)
Example getOrInsert_example :
  let y_is_some_5 := written 0 (Held (VNumber 5)) y_is_none in
  _Option.getOrInsert 0 (VNumber 5) y_is_none = (Normal (VNumber 5), y_is_some_5)
  /\ _Option.getOrInsert 0 (VNumber 7) y_is_some_5
     = (Normal (VNumber 5), y_is_some_5).
Proof. split; reflexivity. Qed.

(** [x.replace(5)] is [some(2)] and leaves [x] as [some(5)]. *)
Example replace_example :
  _Option.replace 0 (VNumber 5) x_is_some_2
  = (Normal (VOption 1),
     with_some (VNumber 2) (written 0 (Held (VNumber 5)) x_is_some_2)).
Proof. reflexivity. Qed.

(** [x.take()] is [some(2)] and leaves [x] as [none()]; [y.take()] is
    [none()] and writes nothing. *)
Example take_example :
  _Option.take 0 x_is_some_2
  = (Normal (VOption 1), with_some (VNumber 2) (written 0 Nothing x_is_some_2))
  /\ _Option.take 0 y_is_none = (Normal (VOption 1), with_none y_is_none).
Proof. split; reflexivity. Qed.

(** [y.unwrap()] throws the [NoneUnwrapped] error. *)
Example unwrap_example :
  _Option.unwrap 0 y_is_none = (Thrown NoneUnwrapped_error, y_is_none).
Proof. reflexivity. Qed.

(** ** Derivation combinators: [map], [filter], [andThen] *)

Lemma with_none_yields_empty st :
  yields_empty (Normal (VOption (fresh st)), with_none st).
Proof. exists (fresh st). split; [reflexivity | apply lookup_fresh_with_none]. Qed.

Lemma map_empty this st o f :
  heap st !! this = Some o -> priv_value o = Nothing ->
  _Option.map this f st = (Normal (VOption (fresh st)), with_none st).
Proof. intros H Hv. unfold _Option.map. js_run. reflexivity. Qed.

Lemma map_throws this st o v f e st1 :
  heap st !! this = Some o -> priv_value o = Held v ->
  f v st = (Thrown e, st1) ->
  _Option.map this f st = (Normal (VOption (fresh st1)), with_none st1).
Proof. intros H Hv Hf. unfold _Option.map. js_run. reflexivity. Qed.

Lemma filter_empty this st o f :
  heap st !! this = Some o -> priv_value o = Nothing ->
  _Option.filter this f st = (Normal (VOption (fresh st)), with_none st).
Proof. intros H Hv. unfold _Option.filter. js_run. reflexivity. Qed.

Lemma filter_throws this st o v f e st1 :
  heap st !! this = Some o -> priv_value o = Held v ->
  f v st = (Thrown e, st1) ->
  _Option.filter this f st = (Normal (VOption (fresh st1)), with_none st1).
Proof. intros H Hv Hf. unfold _Option.filter. js_run. reflexivity. Qed.

Lemma andThen_empty this st o f :
  heap st !! this = Some o -> priv_value o = Nothing ->
  _Option.andThen this f st = (Normal (VOption (fresh st)), with_none st).
Proof. intros H Hv. unfold _Option.andThen. js_run. reflexivity. Qed.

Lemma andThen_throws this st o v f e st1 :
  heap st !! this = Some o -> priv_value o = Held v ->
  f v st = (Thrown e, st1) ->
  _Option.andThen this f st = (Normal (VOption (fresh st1)), with_none st1).
Proof. intros H Hv Hf. unfold _Option.andThen. js_run. reflexivity. Qed.

(** C7.  For [map(f)], [filter(p)] and [andThen(g)] on any live Option: if
    the supplied function throws (whenever it is called, that is, whenever
    the Option is occupied), the method returns normally with a reference
    to an empty Option, whatever value was thrown; no exception reaches the
    caller. *)
Theorem throwing_callback_yields_empty
  (this : loc) (st : State) (o : Obj)
  (f : Value -> M Value) (p : Value -> M bool) (g : Value -> M Value) :
  heap st !! this = Some o ->
  throws_on f o st -> throws_on p o st -> throws_on g o st ->
  yields_empty (_Option.map this f st)
  /\ yields_empty (_Option.filter this p st)
  /\ yields_empty (_Option.andThen this g st).
Proof.
  intros H Hf Hp Hg.
  destruct (priv_value o) as [|v] eqn:Hv.
  - rewrite (map_empty _ _ _ f H Hv), (filter_empty _ _ _ p H Hv),
      (andThen_empty _ _ _ g H Hv).
    auto using with_none_yields_empty.
  - destruct (Hf v Hv) as (e1 & s1 & Ef).
    destruct (Hp v Hv) as (e2 & s2 & Ep).
    destruct (Hg v Hv) as (e3 & s3 & Eg).
    rewrite (map_throws _ _ _ _ _ _ _ H Hv Ef),
      (filter_throws _ _ _ _ _ _ _ H Hv Ep),
      (andThen_throws _ _ _ _ _ _ _ H Hv Eg).
    auto using with_none_yields_empty.
Qed.

(** ** [inspect] *)

Lemma inspect_empty this st o f :
  heap st !! this = Some o -> priv_value o = Nothing ->
  _Option.inspect this f st
  = (Thrown (VAnyError "`value` is accessed on `None`" NoneValueAccessed
                       VUndefined), st).
Proof. intros H Hv. unfold _Option.inspect. js_run. reflexivity. Qed.

Lemma inspect_returns this st o v f r st1 o1 v1 :
  heap st !! this = Some o -> priv_value o = Held v ->
  f v st = (Normal r, st1) ->
  heap st1 !! this = Some o1 -> priv_value o1 = Held v1 ->
  _Option.inspect this f st = (Normal (VOption (fresh st1)), with_some v1 st1).
Proof. intros H Hv Hf H1 Hv1. unfold _Option.inspect. js_run. reflexivity. Qed.

Lemma inspect_throws this st o v f e st1 o1 v1 :
  heap st !! this = Some o -> priv_value o = Held v ->
  f v st = (Thrown e, st1) ->
  heap st1 !! this = Some o1 -> priv_value o1 = Held v1 ->
  _Option.inspect this f st = (Normal (VOption (fresh st1)), with_some v1 st1).
Proof. intros H Hv Hf H1 Hv1. unfold _Option.inspect. js_run. reflexivity. Qed.

(** C1.  On the empty Option [y = none()], [y.inspect(f)] does not return an
    empty Option: whatever [f] is, the final [some(this.value)] reads the
    slot of an empty Option and the [NoneValueAccessed] error of the getter
    reaches the caller.  The state is left as it was, so [f] was not
    called. *)
Theorem inspect_on_none_throws (f : Value -> M Value) :
  _Option.inspect 0 f y_is_none
  = (Thrown (VAnyError "`value` is accessed on `None`" NoneValueAccessed
                       VUndefined), y_is_none).
Proof. now apply (inspect_empty 0 y_is_none (sync Nothing)). Qed.

(** ** [isSomeAnd] *)

Lemma isSomeAnd_run this st o f :
  heap st !! this = Some o ->
  _Option.isSomeAnd this f st
  = (Normal (negb (isNothing (priv_value o))), st).
Proof.
  intros H. unfold _Option.isSomeAnd.
  destruct (priv_value o) eqn:Hv; js_run; reflexivity.
Qed.

(** C2.  On [x = some(2)] the predicate [n => n < 0] returns [false] for the
    contained value, yet [x.isSomeAnd(n => n < 0)] returns [true]: the
    method answers [true] for an occupied Option before it looks at the
    predicate. *)
Theorem isSomeAnd_ignores_false_predicate :
  is_negative (VNumber 2) x_is_some_2 = (Normal false, x_is_some_2)
  /\ _Option.isSomeAnd 0 is_negative x_is_some_2 = (Normal true, x_is_some_2).
Proof. split; reflexivity. Qed.

(** ** [isNoneOr] *)

(** C3, as stated, fails: on [x = some(2)] the predicate
    [_ => { throw new Error() }] throws, and [x.isNoneOr] of it returns
    [false], not [true]. *)
Lemma isNoneOr_throwing_predicate_gives_false :
  throws_Error (VNumber 2) x_is_some_2 = (@Thrown bool (VError ""), x_is_some_2)
  /\ _Option.isNoneOr 0 throws_Error x_is_some_2 = (Normal false, x_is_some_2)
  /\ fst (_Option.isNoneOr 0 throws_Error x_is_some_2) <> Normal true.
Proof. split; [|split]; [reflexivity | reflexivity | discriminate]. Qed.

(** C3, amended.  [isNoneOr(f)] on a live Option: if it is empty the result
    is [true] and [f] is not called; if it holds [v] and [f(v)] returns [b]
    the result is [b]; if [f(v)] throws the result is [false] and nothing
    is propagated.  In each case the state is the one [f] left. *)
Theorem isNoneOr_spec (this : loc) (st : State) (o : Obj) (f : Value -> M bool) :
  heap st !! this = Some o ->
  (priv_value o = Nothing ->
   _Option.isNoneOr this f st = (Normal true, st))
  /\ (forall v b st1,
        priv_value o = Held v -> f v st = (Normal b, st1) ->
        _Option.isNoneOr this f st = (Normal b, st1))
  /\ (forall v e st1,
        priv_value o = Held v -> f v st = (Thrown e, st1) ->
        _Option.isNoneOr this f st = (Normal false, st1)).
Proof.
  intros H. unfold _Option.isNoneOr. split; [|split].
  - intros Hv. js_run. reflexivity.
  - intros v b st1 Hv Hf. js_run. reflexivity.
  - intros v e st1 Hv Hf. js_run. reflexivity.
Qed.

(** [isNoneOr] on [none()], on [some(2)] with [n => n < 0], and on
    [some(2)] with a predicate that throws. *)
Lemma isNoneOr_spec_witness :
  _Option.isNoneOr 0 is_positive y_is_none = (Normal true, y_is_none)
  /\ _Option.isNoneOr 0 is_negative x_is_some_2 = (Normal false, x_is_some_2)
  /\ _Option.isNoneOr 0 throws_Error x_is_some_2 = (Normal false, x_is_some_2).
Proof.
  split; [|split].
  - apply (isNoneOr_spec 0 y_is_none (sync Nothing) is_positive);
      reflexivity.
  - apply (isNoneOr_spec 0 x_is_some_2 (sync (Held (VNumber 2))) is_negative
             eq_refl) with (v := VNumber 2); reflexivity.
  - apply (isNoneOr_spec 0 x_is_some_2 (sync (Held (VNumber 2))) throws_Error
             eq_refl) with (v := VNumber 2) (e := VError ""); reflexivity.
Defined.

(** The three combinators on [some(2)] with [_ => { throw new Error() }]. *)
Lemma throwing_callback_yields_empty_witness :
  yields_empty (_Option.map 0 throws_Error x_is_some_2)
  /\ yields_empty (_Option.filter 0 throws_Error x_is_some_2)
  /\ yields_empty (_Option.andThen 0 throws_Error x_is_some_2).
Proof.
  apply (throwing_callback_yields_empty 0 x_is_some_2 (sync (Held (VNumber 2)))).
  - reflexivity.
  - intros v _. exists (VError ""), x_is_some_2. reflexivity.
  - intros v _. exists (VError ""), x_is_some_2. reflexivity.
  - intros v _. exists (VError ""), x_is_some_2. reflexivity.
Defined.

(** ** [transposeResult] *)

(** C4, as stated, fails: [x = some(2)] holds a value that is not a
    [Result], and [x.transposeResult()] returns [Ok] of a new Option that
    is empty, not one that holds [2]. *)
Lemma transposeResult_non_Result_gives_Ok_empty :
  isResult (VNumber 2) = false
  /\ _Option.transposeResult 0 x_is_some_2
     = (Normal (VOk (VOption 1)), with_none x_is_some_2)
  /\ heap (with_none x_is_some_2) !! 1 = Some (mkObj PNone Nothing)
  /\ heap (with_none x_is_some_2) !! 1 <> Some (mkObj PSome (Held (VNumber 2))).
Proof.
  split; [|split; [|split]];
    [reflexivity | reflexivity | reflexivity | discriminate].
Qed.

(** C4, amended.  [transposeResult()] on a live Option: an empty Option
    gives [Ok] of a new empty Option; an Option holding [Ok(v)] gives [Ok]
    of a new Option holding [v]; an Option holding [Err(e)] gives [Err(e)]
    and allocates nothing; an Option holding a value that is not a [Result]
    gives [Ok] of a new empty Option. *)
Theorem transposeResult_spec (this : loc) (st : State) (o : Obj) :
  heap st !! this = Some o ->
  (priv_value o = Nothing ->
   _Option.transposeResult this st
   = (Normal (VOk (VOption (fresh st))), with_none st))
  /\ (forall v,
        priv_value o = Held (VOk v) ->
        _Option.transposeResult this st
        = (Normal (VOk (VOption (fresh st))), with_some v st))
  /\ (forall e,
        priv_value o = Held (VErr e) ->
        _Option.transposeResult this st = (Normal (VErr e), st))
  /\ (forall x,
        priv_value o = Held x -> isResult x = false ->
        _Option.transposeResult this st
        = (Normal (VOk (VOption (fresh st))), with_none st)).
Proof.
  intros H. unfold _Option.transposeResult. split; [|split; [|split]].
  - intros Hv. js_run. reflexivity.
  - intros v Hv. js_run. reflexivity.
  - intros e Hv. js_run. reflexivity.
  - intros x Hv Hx. js_run. rewrite Hx. js_run. reflexivity.
Qed.

(** [transposeResult] on [none()], [some(ok(2))], [some(err("error"))] and
    [some(2)]. *)
Lemma transposeResult_spec_witness :
  _Option.transposeResult 0 y_is_none
  = (Normal (VOk (VOption 1)), with_none y_is_none)
  /\ _Option.transposeResult 0 x_is_some_ok_2
     = (Normal (VOk (VOption 1)), with_some (VNumber 2) x_is_some_ok_2)
  /\ _Option.transposeResult 0 y_is_some_err
     = (Normal (VErr (VString "error")), y_is_some_err)
  /\ _Option.transposeResult 0 x_is_some_2
     = (Normal (VOk (VOption 1)), with_none x_is_some_2).
Proof.
  split; [|split; [|split]].
  - apply (transposeResult_spec 0 y_is_none (sync Nothing) eq_refl).
    reflexivity.
  - apply (transposeResult_spec 0 x_is_some_ok_2
             (sync (Held (VOk (VNumber 2)))) eq_refl).
    reflexivity.
  - apply (transposeResult_spec 0 y_is_some_err
             (sync (Held (VErr (VString "error")))) eq_refl).
    reflexivity.
  - apply (transposeResult_spec 0 x_is_some_2 (sync (Held (VNumber 2)))
             eq_refl) with (x := VNumber 2); reflexivity.
Defined.

(** ** [getOrInsertWith] *)


Section GetOrInsertWith.

Variable stringify : Value -> string.
Variable AnyError_extends_Error : bool.


End GetOrInsertWith.


(** ** [takeIf] *)

Lemma fresh_written l s st : fresh (written l s st) = fresh st.
Proof. unfold fresh. cbn. apply length_insert. Qed.

Lemma takeValue_run this st o :
  heap st !! this = Some o ->
  _Option.takeValue this st = (Normal (priv_value o), written this Nothing st).
Proof.
  intros H. unfold _Option.takeValue, _Option.replaceValue. js_run.
  reflexivity.
Qed.

(** C9, as stated, fails: on [x = some(2)] the predicate
    [_ => { x.take(); return true }] returns [true], and [x.takeIf] of it
    returns a new Option that is empty, not one that holds the value [x]
    held: the predicate has emptied the slot before [takeIf] takes from
    it. *)
Lemma takeIf_true_may_return_empty :
  takes_then_true (VNumber 2) x_is_some_2 = (Normal true, x_was_taken)
  /\ _Option.takeIf 0 takes_then_true x_is_some_2
     = (Normal (VOption 2), with_none (written 0 Nothing x_was_taken))
  /\ heap (with_none (written 0 Nothing x_was_taken)) !! 2
     = Some (mkObj PNone Nothing)
  /\ heap (with_none (written 0 Nothing x_was_taken)) !! 2
     <> Some (mkObj PSome (Held (VNumber 2))).
Proof.
  split; [|split; [|split]];
    [reflexivity | reflexivity | reflexivity | discriminate].
Qed.

(** C9, amended.  [takeIf(f)] on a live Option.  [st1] is the state the
    predicate leaves and [o1] the receiver in it (the receiver itself, for
    a predicate that does not touch it).
    - Empty: the result is a new empty Option and the state is that of
      [none()], whatever [f] is: [f] is not called.
    - Occupied, [f] returns [true]: one [#setValue(nothing)] empties the
      slot, and the result is a new Option with what the slot held when
      [f] returned: a new occupied Option holding that value if the slot
      was still occupied, a new empty Option if [f] itself had emptied
      it.
    - Occupied, [f] returns [false], or [f] throws: the result is a new
      empty Option, and the method writes nothing: apart from that new
      Option the state is [st1]. *)
Theorem takeIf_spec (this : loc) (st : State) (o : Obj) (f : Value -> M bool) :
  heap st !! this = Some o ->
  (priv_value o = Nothing ->
   _Option.takeIf this f st = (Normal (VOption (fresh st)), with_none st))
  /\ (forall v st1 o1 v1,
        priv_value o = Held v -> f v st = (Normal true, st1) ->
        heap st1 !! this = Some o1 -> priv_value o1 = Held v1 ->
        _Option.takeIf this f st
        = (Normal (VOption (fresh st1)),
           with_some v1 (written this Nothing st1))
        /\ heap (with_some v1 (written this Nothing st1)) !! this
           = Some (mkObj PNone Nothing)
        /\ heap (with_some v1 (written this Nothing st1)) !! fresh st1
           = Some (mkObj PSome (Held v1)))
  /\ (forall v st1 o1,
        priv_value o = Held v -> f v st = (Normal true, st1) ->
        heap st1 !! this = Some o1 -> priv_value o1 = Nothing ->
        _Option.takeIf this f st
        = (Normal (VOption (fresh st1)), with_none (written this Nothing st1))
        /\ heap (with_none (written this Nothing st1)) !! this
           = Some (mkObj PNone Nothing)
        /\ heap (with_none (written this Nothing st1)) !! fresh st1
           = Some (mkObj PNone Nothing))
  /\ (forall v st1 o1,
        priv_value o = Held v -> f v st = (Normal false, st1) ->
        heap st1 !! this = Some o1 ->
        _Option.takeIf this f st
        = (Normal (VOption (fresh st1)), with_none st1)
        /\ heap (with_none st1) !! this = Some o1
        /\ setValue_calls (with_none st1) = setValue_calls st1)
  /\ (forall v e st1 o1,
        priv_value o = Held v -> f v st = (Thrown e, st1) ->
        heap st1 !! this = Some o1 ->
        _Option.takeIf this f st
        = (Normal (VOption (fresh st1)), with_none st1)
        /\ heap (with_none st1) !! this = Some o1
        /\ setValue_calls (with_none st1) = setValue_calls st1).
Proof.
  intros H. unfold _Option.takeIf. split; [|split; [|split; [|split]]].
  - intros Hv. js_run. reflexivity.
  - intros v st1 o1 v1 Hv Hf H1 Hv1. split; [|split].
    + js_run. rewrite (takeValue_run _ _ _ H1). js_run.
      now rewrite fresh_written.
    + apply lookup_with_some. eapply lookup_written_eq, H1.
    + rewrite <- (fresh_written this Nothing st1).
      apply lookup_fresh_with_some.
  - intros v st1 o1 Hv Hf H1 Hv1. split; [|split].
    + js_run. rewrite (takeValue_run _ _ _ H1). js_run.
      now rewrite fresh_written.
    + apply lookup_with_none. eapply lookup_written_eq, H1.
    + rewrite <- (fresh_written this Nothing st1).
      apply lookup_fresh_with_none.
  - intros v st1 o1 Hv Hf H1. split; [|split].
    + js_run. reflexivity.
    + now apply lookup_with_none.
    + reflexivity.
  - intros v e st1 o1 Hv Hf H1. split; [|split].
    + js_run. reflexivity.
    + now apply lookup_with_none.
    + reflexivity.
Qed.

(** [takeIf] on [none()], and on [some(2)] with [n => n > 0], with
    [_ => { x.take(); return true }], with [n => n < 0] and with a
    predicate that throws. *)
Lemma takeIf_spec_witness :
  _Option.takeIf 0 is_positive y_is_none
  = (Normal (VOption 1), with_none y_is_none)
  /\ _Option.takeIf 0 is_positive x_is_some_2
     = (Normal (VOption 1),
        with_some (VNumber 2) (written 0 Nothing x_is_some_2))
  /\ _Option.takeIf 0 takes_then_true x_is_some_2
     = (Normal (VOption 2), with_none (written 0 Nothing x_was_taken))
  /\ _Option.takeIf 0 is_negative x_is_some_2
     = (Normal (VOption 1), with_none x_is_some_2)
  /\ _Option.takeIf 0 throws_Error x_is_some_2
     = (Normal (VOption 1), with_none x_is_some_2).
Proof.
  pose proof (takeIf_spec 0 y_is_none (sync Nothing) is_positive eq_refl)
    as (Hnone & _).
  pose proof (takeIf_spec 0 x_is_some_2 (sync (Held (VNumber 2))) is_positive
                eq_refl) as (_ & Htrue & _).
  pose proof (takeIf_spec 0 x_is_some_2 (sync (Held (VNumber 2)))
                takes_then_true eq_refl) as (_ & _ & Htaken & _).
  pose proof (takeIf_spec 0 x_is_some_2 (sync (Held (VNumber 2))) is_negative
                eq_refl) as (_ & _ & _ & Hfalse & _).
  pose proof (takeIf_spec 0 x_is_some_2 (sync (Held (VNumber 2)))
                throws_Error eq_refl) as (_ & _ & _ & _ & Hthrow).
  split; [|split; [|split; [|split]]].
  - apply Hnone. reflexivity.
  - apply (Htrue (VNumber 2) x_is_some_2 (sync (Held (VNumber 2))) (VNumber 2));
      reflexivity.
  - apply (Htaken (VNumber 2) x_was_taken (sync Nothing)); reflexivity.
  - apply (Hfalse (VNumber 2) x_is_some_2 (sync (Held (VNumber 2))));
      reflexivity.
  - apply (Hthrow (VNumber 2) (VError "") x_is_some_2
             (sync (Held (VNumber 2)))); reflexivity.
Defined.

(** ** The discriminant follows the slot *)

Lemma synced_sync s : synced (sync s).
Proof.
  destruct s; unfold synced; cbn; split; intros H; [discriminate H | now destruct H | discriminate | reflexivity].
Qed.

Lemma Inv_empty_state : Inv empty_state.
Proof. constructor. Qed.

Section Keeps.

Context {A B : Type}.
Variable P : State -> Prop.

Lemma keeps_ret (a : A) : keeps P (ret a).
Proof. intros st H. exact H. Qed.

Lemma keeps_throw (e : Value) : keeps P (@throw A e).
Proof. intros st H. exact H. Qed.

Lemma keeps_bind (m : M A) (k : A -> M B) :
  keeps P m -> (forall a, keeps P (k a)) -> keeps P (bind m k).
Proof.
  intros Hm Hk st H. specialize (Hm st H). unfold bind.
  destruct (m st) as [[a|e|] st']; cbn in *; [now apply Hk | exact Hm..].
Qed.

Lemma keeps_try_catch (m : M A) (h : Value -> M A) :
  keeps P m -> (forall e, keeps P (h e)) -> keeps P (try_catch m h).
Proof.
  intros Hm Hh st H. specialize (Hm st H). unfold try_catch.
  destruct (m st) as [[a|e|] st']; cbn in *; [exact Hm | now apply Hh | exact Hm].
Qed.

Lemma keeps_if (b : bool) (m1 m2 : M A) :
  keeps P m1 -> keeps P m2 -> keeps P (if b then m1 else m2).
Proof. now destruct b. Qed.

End Keeps.

Lemma keeps_deref P l : keeps P (deref l).
Proof. intros st H. unfold deref. now destruct (heap st !! l). Qed.

Lemma keeps_Inv_setValue this s : keeps Inv (_Option.setValue this s).
Proof.
  intros st H. destruct (heap st !! this) as [o|] eqn:E.
  - rewrite (setValue_run _ s _ _ E). cbn.
    apply Forall_insert; [exact H | apply synced_sync].
  - now rewrite (setValue_fault _ s _ E).
Qed.

Lemma keeps_Inv_none : keeps Inv _Option.none.
Proof.
  intros st H. rewrite none_run. cbn. apply Forall_app. split; [exact H|].
  constructor; [apply (synced_sync Nothing) | constructor].
Qed.

Lemma keeps_Inv_some v : keeps Inv (_Option.some v).
Proof.
  intros st H. rewrite some_run. cbn. apply Forall_app. split; [exact H|].
  constructor; [apply (synced_sync (Held v)) | constructor].
Qed.

Lemma keeps_isNone P this : keeps P (_Option.isNone this).
Proof.
  apply keeps_bind; [apply keeps_deref | intros; apply keeps_ret].
Qed.

Lemma keeps_isSome P this : keeps P (_Option.isSome this).
Proof.
  apply keeps_bind; [apply keeps_isNone | intros; apply keeps_ret].
Qed.

Lemma keeps_value P this : keeps P (_Option.value this).
Proof.
  apply keeps_bind; [apply keeps_deref |].
  intros o. destruct (priv_value o); [apply keeps_throw | apply keeps_ret].
Qed.

Lemma keeps_Inv_replaceValue this s : keeps Inv (_Option.replaceValue this s).
Proof.
  apply keeps_bind; [apply keeps_deref | intros o].
  apply keeps_bind; [apply keeps_Inv_setValue | intros; apply keeps_ret].
Qed.

Lemma keeps_Inv_slot_to_option (s : Slot) :
  keeps Inv (match s with Nothing => _Option.none | Held v => _Option.some v end).
Proof. destruct s; [apply keeps_Inv_none | apply keeps_Inv_some]. Qed.

Lemma keeps_Inv_clone this : keeps Inv (_Option.clone this).
Proof.
  apply keeps_bind; [apply keeps_isNone | intros b].
  apply keeps_if; [apply keeps_Inv_none |].
  apply keeps_bind; [apply keeps_value | intros; apply keeps_Inv_some].
Qed.

Lemma keeps_Inv_then_setValue x this : keeps Inv (_Option.then_setValue x this).
Proof. intros st H. exact H. Qed.

#[local] Hint Resolve keeps_ret keeps_throw keeps_deref keeps_Inv_setValue
  keeps_Inv_none keeps_Inv_some keeps_isNone keeps_isSome keeps_value
  keeps_Inv_replaceValue keeps_Inv_slot_to_option keeps_Inv_clone
  keeps_Inv_then_setValue : js.

(** Invariant preservation follows the shape of the method body. *)
Ltac keeps_auto :=
  repeat
    (first
       [ solve [ eauto with js ]
       | apply keeps_bind; [| intros ? ]
       | apply keeps_try_catch; [| intros ? ]
       | apply keeps_if ]).

(** C10.  In every state reached from the public constructors and the
    mutating operations, each instance has its discriminant field equal to
    ["some"] exactly when its slot holds a value other than the empty
    marker.  The property holds of the initial state; [some] and [none]
    keep it; [insert], [getOrInsert], [getOrInsertWith], [replace] (with a
    value or with a future), [take], [takeIf] and the reaction of the
    deferred [replace] keep it, given callbacks that keep it.  The two
    fields change only in [#setValue], which leaves them in agreement
    whatever they were before. *)
Theorem phantom_tracks_slot :
  Inv empty_state
  /\ (forall v, keeps Inv (_Option.some v))
  /\ keeps Inv _Option.none
  /\ (forall this x, keeps Inv (_Option.insert this x))
  /\ (forall this x, keeps Inv (_Option.getOrInsert this x))
  /\ (forall stringify ext this f,
        keeps Inv f ->
        keeps Inv (_Option.getOrInsertWith stringify ext this f))
  /\ (forall this x, keeps Inv (_Option.replace this x))
  /\ (forall this, keeps Inv (_Option.take this))
  /\ (forall this f,
        (forall v, keeps Inv (f v)) -> keeps Inv (_Option.takeIf this f))
  /\ (forall r s, keeps Inv (_Option.run_reaction r s))
  /\ (forall this s st o,
        heap st !! this = Some o ->
        _Option.setValue this s st = (Normal tt, written this s st)
        /\ heap (written this s st) !! this = Some (sync s)
        /\ synced (sync s)).
Proof.
  repeat apply conj.
  - apply Inv_empty_state.
  - apply keeps_Inv_some.
  - apply keeps_Inv_none.
  - intros this x. unfold _Option.insert. keeps_auto.
  - intros this x. unfold _Option.getOrInsert. keeps_auto.
  - intros stringify ext this f Hf. unfold _Option.getOrInsertWith.
    keeps_auto.
  - intros this x. unfold _Option.replace.
    destruct x; keeps_auto.
  - intros this. unfold _Option.take, _Option.takeValue. keeps_auto.
  - intros this f Hf. unfold _Option.takeIf, _Option.takeValue. keeps_auto.
  - intros r [val|reason]; cbn; [apply keeps_Inv_setValue | apply keeps_ret].
  - intros this s st o H. split; [|split].
    + now apply setValue_run with o.
    + eapply lookup_written_eq, H.
    + apply synced_sync.
Qed.

(** The invariant after [some(2)], after [takeIf] and [getOrInsertWith]
    with callbacks that leave the heap alone, and after one
    [#setValue(nothing)]. *)
Lemma phantom_tracks_slot_witness :
  Inv x_is_some_2
  /\ Inv (snd (_Option.takeIf 0 is_positive x_is_some_2))
  /\ Inv (snd (_Option.getOrInsertWith sample_stringify true 0
                 (ret (VNumber 5)) y_is_none))
  /\ heap (written 0 Nothing x_is_some_2) !! 0 = Some (mkObj PNone Nothing).
Proof.
  pose proof phantom_tracks_slot
    as (H0 & Hsome & Hnone & _ & _ & Hwith & _ & _ & HtakeIf & _ & Hset).
  assert (Hx : Inv x_is_some_2) by exact (Hsome (VNumber 2) empty_state H0).
  split; [|split; [|split]].
  - exact Hx.
  - apply (HtakeIf 0 is_positive); [| exact Hx].
    intros v st H. exact H.
  - apply (Hwith sample_stringify true 0 (ret (VNumber 5))).
    + intros st H. exact H.
    + exact (Hnone empty_state H0).
  - apply (Hset 0 Nothing x_is_some_2 (sync (Held (VNumber 2)))).
    reflexivity.
Defined.

(** ** Deferred [replace] *)

Lemma clone_run this st o :
  heap st !! this = Some o ->
  _Option.clone this st
  = (Normal (VOption (fresh st)), with_copy (priv_value o) st).
Proof.
  intros H. unfold _Option.clone.
  destruct (priv_value o) eqn:Hv; js_run; reflexivity.
Qed.

Lemma lookup_with_copy s st l o :
  heap st !! l = Some o -> heap (with_copy s st) !! l = Some o.
Proof. destruct s; [apply lookup_with_none | apply lookup_with_some]. Qed.

Lemma lookup_fresh_with_copy s st :
  heap (with_copy s st) !! fresh st = Some (sync s).
Proof.
  destruct s; [apply lookup_fresh_with_none | apply lookup_fresh_with_some].
Qed.

Lemma calls_on_with_copy l s st :
  l <> fresh st -> calls_on l (with_copy s st) = calls_on l st.
Proof.
  intros Hl. destruct s as [|v]; [reflexivity|].
  unfold calls_on, with_some. cbn. rewrite omap_app. cbn.
  destruct (Nat.eqb_spec (fresh st) l) as [E|_]; [congruence|].
  apply app_nil_r.
Qed.

Lemma calls_on_written l s st :
  calls_on l (written l s st) = calls_on l st ++ [s].
Proof.
  unfold calls_on, written. cbn. rewrite omap_app. cbn.
  now rewrite Nat.eqb_refl.
Qed.

Lemma setValue_other this s st l :
  this <> l -> heap (snd (_Option.setValue this s st)) !! l = heap st !! l.
Proof.
  intros Hne. destruct (heap st !! this) as [o|] eqn:E.
  - rewrite (setValue_run _ s _ _ E). now apply lookup_written_ne.
  - now rewrite (setValue_fault _ s _ E).
Qed.

(** Writes to one instance leave every other instance as it was. *)
Lemma write_all_other this ws : forall st l,
  this <> l -> heap (write_all this ws st) !! l = heap st !! l.
Proof.
  induction ws as [|w ws IH]; intros st l Hne; [reflexivity|].
  cbn. rewrite IH by exact Hne. now apply setValue_other.
Qed.

Lemma filter_none {X} (f : X -> bool) (l : list X) :
  Forall (fun x => f x = false) l -> List.filter f l = [].
Proof.
  induction 1 as [|x l Hx _ IH]; [reflexivity|]. cbn. now rewrite Hx.
Qed.

Lemma filter_all {X} (f : X -> bool) (l : list X) :
  Forall (fun x => f x = true) l -> List.filter f l = l.
Proof.
  induction 1 as [|x l Hx _ IH]; [reflexivity|]. cbn. rewrite Hx.
  now f_equal.
Qed.

Lemma then_setValue_run x this st :
  _Option.then_setValue x this st
  = (Normal (next_promise st),
     registered (mkReaction x this (next_promise st)) st).
Proof. reflexivity. Qed.

Lemma settle_last x s st rs r :
  reactions st = rs ++ [r] ->
  Forall (fun r' => source r' <> x) rs ->
  source r = x ->
  settle x s st = snd (_Option.run_reaction r s (set_reactions rs st)).
Proof.
  intros Hr Hrs Hx. unfold settle. rewrite Hr, !List.filter_app. cbn.
  rewrite Hx, Nat.eqb_refl. cbn.
  rewrite (filter_none (fun r' => Nat.eqb (source r') x) rs),
    (filter_all (fun r' => negb (Nat.eqb (source r') x)) rs), app_nil_r;
    [reflexivity | |].
  - eapply Forall_impl; [exact Hrs|]. cbn. intros r' Hne.
    now destruct (Nat.eqb_spec (source r') x).
  - eapply Forall_impl; [exact Hrs|]. cbn. intros r' Hne.
    now destruct (Nat.eqb_spec (source r') x).
Qed.

(** C6.  [replace(x)] with a future [x] on a live Option returns the pair of
    a snapshot and a trigger and registers one reaction on [x].
    - The snapshot is a new instance, distinct from the receiver, holding
      what the slot held at call time, and no sequence of later writes to
      the receiver changes it.
    - The call leaves the receiver as it was and calls [#setValue] on it
      zero times.
    - When the reaction runs with a resolved value, it makes exactly one
      call of [#setValue] on the receiver, after which the receiver holds
      that value with both fields updated; when it runs with a rejection
      it changes nothing.
    - If no other reaction waits for [x], settling [x] does just that. *)
Theorem deferred_replace (this : loc) (x : pid) (st : State) (o : Obj) :
  heap st !! this = Some o ->
  let snapshot := fresh st in
  let trigger := next_promise st in
  let r := mkReaction x this trigger in
  exists st',
    _Option.replace this (VPromise x) st
    = (Normal (VTuple (VOption snapshot) (VPromise trigger)), st')
    /\ snapshot <> this
    /\ heap st' !! snapshot = Some (sync (priv_value o))
    /\ (forall ws,
          heap (write_all this ws st') !! snapshot
          = Some (sync (priv_value o)))
    /\ heap st' !! this = Some o
    /\ calls_on this st' = calls_on this st
    /\ reactions st' = reactions st ++ [r]
    /\ (forall s2 o2 val,
          heap s2 !! this = Some o2 ->
          _Option.run_reaction r (Fulfilled val) s2
          = (Normal tt, written this (Held val) s2)
          /\ heap (written this (Held val) s2) !! this
             = Some (mkObj PSome (Held val))
          /\ calls_on this (written this (Held val) s2)
             = calls_on this s2 ++ [Held val])
    /\ (forall s2 reason,
          _Option.run_reaction r (Rejected reason) s2 = (Normal tt, s2))
    /\ (Forall (fun r' => source r' <> x) (reactions st) ->
        (forall val,
           settle x (Fulfilled val) st'
           = written this (Held val) (set_reactions (reactions st) st'))
        /\ (forall reason,
              settle x (Rejected reason) st'
              = set_reactions (reactions st) st')).
Proof.
  intros H snapshot trigger r.
  pose proof (fresh_not_live _ _ _ H) as Hne.
  set (st1 := registered r st).
  assert (H1 : heap st1 !! this = Some o) by exact H.
  exists (with_copy (priv_value o) st1).
  assert (Hrs : reactions (with_copy (priv_value o) st1) = reactions st ++ [r])
    by now destruct (priv_value o).
  repeat apply conj.
  - unfold _Option.replace.
    rewrite (bind_normal _ _ _ _ _ (then_setValue_run x this st)).
    now rewrite (bind_normal _ _ _ _ _ (clone_run _ _ _ H1)).
  - intros E. apply Hne. symmetry. exact E.
  - apply (lookup_fresh_with_copy (priv_value o) st1).
  - intros ws. rewrite write_all_other by exact Hne.
    apply (lookup_fresh_with_copy (priv_value o) st1).
  - now apply lookup_with_copy.
  - now rewrite calls_on_with_copy by exact Hne.
  - exact Hrs.
  - intros s2 o2 val H2. split; [|split].
    + cbn. now apply setValue_run with o2.
    + eapply lookup_written_eq, H2.
    + apply calls_on_written.
  - reflexivity.
  - intros Hfree. split.
    + intros val. rewrite (settle_last x _ _ _ r Hrs Hfree eq_refl). cbn.
      rewrite (setValue_run this (Held val) _ o); [reflexivity|].
      cbn. now apply lookup_with_copy.
    + intros reason. now rewrite (settle_last x _ _ _ r Hrs Hfree eq_refl).
Qed.

(** [x = some(2)] and [x.replace(p)] for a pending promise [p]: [x] and the
    snapshot hold [2]; once [p] resolves to [5], [x] holds [5] and the
    snapshot still holds [2]; if [p] rejects instead, [x] still holds
    [2]. *)
Lemma deferred_replace_witness :
  exists st',
    _Option.replace 0 (VPromise 7) x_is_some_2
    = (Normal (VTuple (VOption 1) (VPromise 0)), st')
    /\ heap st' !! 0 = Some (mkObj PSome (Held (VNumber 2)))
    /\ heap st' !! 1 = Some (mkObj PSome (Held (VNumber 2)))
    /\ heap (settle 7 (Fulfilled (VNumber 5)) st') !! 0
       = Some (mkObj PSome (Held (VNumber 5)))
    /\ heap (settle 7 (Fulfilled (VNumber 5)) st') !! 1
       = Some (mkObj PSome (Held (VNumber 2)))
    /\ heap (settle 7 (Rejected (VError "")) st') !! 0
       = Some (mkObj PSome (Held (VNumber 2))).
Proof.
  destruct (deferred_replace 0 7 x_is_some_2 (sync (Held (VNumber 2))) eq_refl)
    as (st' & Hrun & _ & Hsnap & _ & Hlive & _ & _ & Hfire & _ & Hsettle).
  assert (Hfree : Forall (fun r' => source r' <> 7) (reactions x_is_some_2))
    by (change (reactions x_is_some_2) with (@nil Reaction); constructor).
  destruct (Hsettle Hfree) as (Hok & Hfail).
  exists st'. split; [exact Hrun|]. split; [exact Hlive|].
  split; [exact Hsnap|]. rewrite Hok, Hfail.
  split; [|split].
  - apply (Hfire (set_reactions [] st') (sync (Held (VNumber 2)))).
    exact Hlive.
  - rewrite lookup_written_ne by discriminate. exact Hsnap.
  - exact Hlive.
Defined.

(** * The rest of the class *)

(** Symbolic execution, extended to the methods below. *)
Ltac js_red2 :=
  cbv beta iota delta [bind try_catch ret throw noop call];
  cbn [isNothing negb sync priv_value phantom isResult isOk isPromise isOption
       instanceof_AnyError result_value result_error].

Ltac js_run2 :=
  js_red2;
  repeat
    (first
       [ erewrite isNone_run by eauto with js
       | erewrite isSome_run by eauto with js
       | erewrite value_held by eauto with js
       | erewrite value_nothing by eauto with js
       | erewrite setValue_run by eauto with js
       | erewrite clone_run by eauto with js
       | erewrite deref_run by eauto with js
       | rewrite none_run
       | rewrite some_run
       | match goal with H : priv_value _ = _ |- _ => rewrite H end
       | match goal with H : _ = (_, _) |- _ => rewrite H end ];
     js_red2).

(** ** [clone] *)

(** [clone()] on a live Option returns a new instance, distinct from the
    receiver, whose slot equals the receiver's; afterwards no sequence of
    writes to the copy changes the receiver and no sequence of writes to
    the receiver changes the copy. *)
Theorem clone_is_independent (this : loc) (st : State) (o : Obj) :
  heap st !! this = Some o ->
  let copy := fresh st in
  let st' := with_copy (priv_value o) st in
  _Option.clone this st = (Normal (VOption copy), st')
  /\ copy <> this
  /\ heap st' !! copy = Some (sync (priv_value o))
  /\ heap st' !! this = Some o
  /\ (forall ws, heap (write_all copy ws st') !! this = Some o)
  /\ (forall ws,
        heap (write_all this ws st') !! copy = Some (sync (priv_value o))).
Proof.
  intros H copy st'. pose proof (fresh_not_live _ _ _ H) as Hne.
  assert (Hthis : heap st' !! this = Some o) by now apply lookup_with_copy.
  assert (Hcopy : heap st' !! copy = Some (sync (priv_value o)))
    by apply lookup_fresh_with_copy.
  split; [now apply clone_run|]. split; [intros E; now apply Hne|].
  split; [exact Hcopy|]. split; [exact Hthis|]. split; intros ws.
  - rewrite write_all_other; [exact Hthis | intros E; now apply Hne].
  - rewrite write_all_other; [exact Hcopy | exact Hne].
Qed.

(** [x = some(2)] and its clone at location [1]: emptying the clone leaves
    [x] as it was. *)
Lemma clone_is_independent_witness :
  _Option.clone 0 x_is_some_2
  = (Normal (VOption 1), with_some (VNumber 2) x_is_some_2)
  /\ heap (write_all 1 [Nothing] (with_some (VNumber 2) x_is_some_2)) !! 0
     = Some (mkObj PSome (Held (VNumber 2))).
Proof.
  pose proof (clone_is_independent 0 x_is_some_2 (sync (Held (VNumber 2)))
                eq_refl) as (Hrun & _ & _ & _ & Hfar & _).
  split; [exact Hrun | exact (Hfar [Nothing])].
Defined.

(** ** [insert], [getOrInsert], [replace], [take] *)

(** [insert(x)] on a live Option, whatever it held: it returns [x], makes
    exactly one call of [#setValue] on the receiver, and afterwards the
    receiver is occupied and [unwrap()] returns [x]. *)
Theorem insert_overwrites (this : loc) (x : Value) (st : State) (o : Obj) :
  heap st !! this = Some o ->
  let st' := written this (Held x) st in
  _Option.insert this x st = (Normal x, st')
  /\ calls_on this st' = calls_on this st ++ [Held x]
  /\ _Option.isSome this st' = (Normal true, st')
  /\ _Option.unwrap this st' = (Normal x, st').
Proof.
  intros H st'.
  assert (H' : heap st' !! this = Some (sync (Held x)))
    by (eapply lookup_written_eq, H).
  split; [|split; [|split]].
  - unfold _Option.insert. js_run2. reflexivity.
  - apply calls_on_written.
  - now rewrite (isSome_run _ _ _ H').
  - unfold _Option.unwrap. js_run2. reflexivity.
Qed.

(** [x = some(2); x.insert(5)] returns [5]. *)
Lemma insert_overwrites_witness :
  _Option.insert 0 (VNumber 5) x_is_some_2
  = (Normal (VNumber 5), written 0 (Held (VNumber 5)) x_is_some_2).
Proof.
  apply (insert_overwrites 0 (VNumber 5) x_is_some_2 (sync (Held (VNumber 2)))).
  reflexivity.
Defined.

(** [getOrInsert(x)] on a live Option: if it is empty, [x] is written with
    one call of [#setValue] and returned; if it holds [v], [v] is returned
    and the state is unchanged.  Either way a second call, with any
    argument, returns what the first returned and changes nothing. *)
Theorem getOrInsert_spec (this : loc) (x : Value) (st : State) (o : Obj) :
  heap st !! this = Some o ->
  (priv_value o = Nothing ->
   _Option.getOrInsert this x st = (Normal x, written this (Held x) st))
  /\ (forall v,
        priv_value o = Held v ->
        _Option.getOrInsert this x st = (Normal v, st))
  /\ (forall x',
        _Option.getOrInsert this x' (snd (_Option.getOrInsert this x st))
        = _Option.getOrInsert this x st).
Proof.
  intros H.
  assert (Hocc : forall v s o', heap s !! this = Some o' ->
                 priv_value o' = Held v ->
                 forall y, _Option.getOrInsert this y s = (Normal v, s)).
  { intros v s o' Hs Hv y. unfold _Option.getOrInsert. js_run2. reflexivity. }
  assert (Hemp : priv_value o = Nothing ->
                 _Option.getOrInsert this x st
                 = (Normal x, written this (Held x) st)).
  { intros Hv. unfold _Option.getOrInsert. js_run2. reflexivity. }
  split; [exact Hemp|]. split; [intros v Hv; now apply (Hocc v st o)|].
  intros x'. destruct (priv_value o) as [|v] eqn:Hv.
  - rewrite (Hemp eq_refl). cbn [snd].
    apply (Hocc x _ (sync (Held x))); [eapply lookup_written_eq, H | reflexivity].
  - rewrite (Hocc v st o H Hv x). cbn [snd]. now apply (Hocc v st o).
Qed.

(** [y = none(); y.getOrInsert(5)] is [5] and a following
    [y.getOrInsert(7)] is [5] again; [x = some(2); x.getOrInsert(5)] is
    [2]. *)
Lemma getOrInsert_spec_witness :
  _Option.getOrInsert 0 (VNumber 5) y_is_none
  = (Normal (VNumber 5), written 0 (Held (VNumber 5)) y_is_none)
  /\ _Option.getOrInsert 0 (VNumber 5) x_is_some_2
     = (Normal (VNumber 2), x_is_some_2)
  /\ _Option.getOrInsert 0 (VNumber 7)
       (snd (_Option.getOrInsert 0 (VNumber 5) y_is_none))
     = _Option.getOrInsert 0 (VNumber 5) y_is_none.
Proof.
  pose proof (getOrInsert_spec 0 (VNumber 5) y_is_none (sync Nothing) eq_refl)
    as (Hemp & _ & Hagain).
  pose proof (getOrInsert_spec 0 (VNumber 5) x_is_some_2
                (sync (Held (VNumber 2))) eq_refl) as (_ & Hocc & _).
  split; [apply Hemp; reflexivity|].
  split; [apply (Hocc (VNumber 2)); reflexivity | apply Hagain].
Defined.

(** [replace(x)] with a value [x] that is not a promise, on a live Option:
    one call of [#setValue] puts [x] in the slot, and the result is a new
    instance, distinct from the receiver, that holds what the slot held
    before (and is empty if the slot was empty). *)
Theorem replace_returns_old (this : loc) (x : Value) (st : State) (o : Obj) :
  heap st !! this = Some o ->
  isPromise x = false ->
  let old := fresh st in
  let st' := with_copy (priv_value o) (written this (Held x) st) in
  _Option.replace this x st = (Normal (VOption old), st')
  /\ old <> this
  /\ heap st' !! this = Some (mkObj PSome (Held x))
  /\ heap st' !! old = Some (sync (priv_value o))
  /\ calls_on this st' = calls_on this st ++ [Held x].
Proof.
  intros H Hx old st'. pose proof (fresh_not_live _ _ _ H) as Hne.
  split; [|split; [|split; [|split]]].
  - unfold _Option.replace, _Option.replaceValue.
    destruct x; try discriminate Hx; js_run2;
      destruct (priv_value o); js_run2; subst st' old; cbn [with_copy];
      now rewrite fresh_written.
  - intros E. now apply Hne.
  - apply lookup_with_copy. eapply lookup_written_eq, H.
  - subst old st'. rewrite <- (fresh_written this (Held x) st).
    apply lookup_fresh_with_copy.
  - subst st'. rewrite calls_on_with_copy.
    + apply calls_on_written.
    + now rewrite fresh_written.
Qed.

(** [x = some(2); x.replace(5)] is [some(2)] and leaves [x] as [some(5)]. *)
Lemma replace_returns_old_witness :
  _Option.replace 0 (VNumber 5) x_is_some_2
  = (Normal (VOption 1),
     with_some (VNumber 2) (written 0 (Held (VNumber 5)) x_is_some_2)).
Proof.
  apply (replace_returns_old 0 (VNumber 5) x_is_some_2
           (sync (Held (VNumber 2)))); reflexivity.
Defined.

(** [take()] on a live Option: if it holds [v], one call of
    [#setValue(nothing)] empties it and the result is a new Option holding
    [v]; if it is empty nothing is written and the result is a new empty
    Option.  Either way the receiver is empty afterwards, with both fields
    saying so. *)
Theorem take_spec (this : loc) (st : State) (o : Obj) :
  heap st !! this = Some o ->
  (priv_value o = Nothing ->
   _Option.take this st = (Normal (VOption (fresh st)), with_none st))
  /\ (forall v,
        priv_value o = Held v ->
        _Option.take this st
        = (Normal (VOption (fresh st)),
           with_some v (written this Nothing st)))
  /\ (synced o ->
      heap (snd (_Option.take this st)) !! this = Some (mkObj PNone Nothing)).
Proof.
  intros H.
  assert (Hemp : priv_value o = Nothing ->
                 _Option.take this st
                 = (Normal (VOption (fresh st)), with_none st)).
  { intros Hv. unfold _Option.take. js_run2. reflexivity. }
  assert (Hocc : forall v, priv_value o = Held v ->
                 _Option.take this st
                 = (Normal (VOption (fresh st)),
                    with_some v (written this Nothing st))).
  { intros v Hv. unfold _Option.take. js_run2.
    rewrite (takeValue_run _ _ _ H). js_run2. now rewrite fresh_written. }
  split; [exact Hemp|]. split; [exact Hocc|].
  intros Hs. destruct o as [ph [|v]].
  - rewrite (Hemp eq_refl). cbn [snd]. apply lookup_with_none.
    destruct ph; [| exact H].
    destruct Hs as [Hs _]. now destruct (Hs eq_refl).
  - rewrite (Hocc v eq_refl). cbn [snd]. apply lookup_with_some.
    eapply lookup_written_eq, H.
Qed.

(** [x = some(2); x.take()] is [some(2)] and leaves [x] empty;
    [y = none(); y.take()] is [none()]. *)
Lemma take_spec_witness :
  _Option.take 0 x_is_some_2
  = (Normal (VOption 1), with_some (VNumber 2) (written 0 Nothing x_is_some_2))
  /\ _Option.take 0 y_is_none = (Normal (VOption 1), with_none y_is_none)
  /\ heap (snd (_Option.take 0 x_is_some_2)) !! 0
     = Some (mkObj PNone Nothing).
Proof.
  pose proof (take_spec 0 x_is_some_2 (sync (Held (VNumber 2))) eq_refl)
    as (_ & Hocc & Hafter).
  pose proof (take_spec 0 y_is_none (sync Nothing) eq_refl) as (Hemp & _).
  split; [apply (Hocc (VNumber 2)); reflexivity|].
  split; [apply Hemp; reflexivity|].
  apply Hafter. split; [discriminate | reflexivity].
Defined.

(** ** [unwrap], [expect], [unwrapOr], [mapOr] *)

(** [unwrap()] and [expect(msg)] on a live Option return the contained
    value if there is one.  On an empty Option [unwrap()] throws an
    [AnyError] with the reason [NoneUnwrapped], and [expect] throws one with
    the reason [NoneExpected] whose message is [msg], or a default message
    when the argument is left out; neither error carries a cause.  The
    state is never changed. *)
Theorem unwrap_expect_spec (this : loc) (st : State) (o : Obj) :
  heap st !! this = Some o ->
  (forall v,
     priv_value o = Held v ->
     _Option.unwrap this st = (Normal v, st)
     /\ forall msg, _Option.expect this msg st = (Normal v, st))
  /\ (priv_value o = Nothing ->
      _Option.unwrap this st
      = (Thrown (VAnyError "`unwrap` is called on `None`" NoneUnwrapped
                   VUndefined), st)
      /\ (forall m,
            _Option.expect this (Some m) st
            = (Thrown (VAnyError m NoneExpected VUndefined), st))
      /\ _Option.expect this None st
         = (Thrown (VAnyError "`expect` is called on `None`" NoneExpected
                      VUndefined), st)).
Proof.
  intros H. unfold _Option.unwrap, _Option.expect. split.
  - intros v Hv. split; [|intros msg]; js_run2; reflexivity.
  - intros Hv. split; [|split; [intros m|]]; js_run2; reflexivity.
Qed.

(** [some(2).expect("Missing value")] is [2];
    [none().expect("Missing value")] throws that message. *)
Lemma unwrap_expect_spec_witness :
  _Option.expect 0 (Some "Missing value") x_is_some_2
  = (Normal (VNumber 2), x_is_some_2)
  /\ _Option.expect 0 (Some "Missing value") y_is_none
     = (Thrown (VAnyError "Missing value" NoneExpected VUndefined), y_is_none).
Proof.
  pose proof (unwrap_expect_spec 0 x_is_some_2 (sync (Held (VNumber 2)))
                eq_refl) as (Hocc & _).
  pose proof (unwrap_expect_spec 0 y_is_none (sync Nothing) eq_refl)
    as (_ & Hemp).
  split.
  - apply (Hocc (VNumber 2) eq_refl).
  - apply (Hemp eq_refl).
Defined.

(** [unwrapOr(def)] and [mapOr(def, f)] on a live Option never throw.
    [unwrapOr] returns the contained value, or [def] if there is none.
    [mapOr] returns [def] without calling [f] if the Option is empty, the
    result of [f] on the contained value if [f] returns, and [def] if [f]
    throws. *)
Theorem unwrapOr_mapOr_spec
  (this : loc) (def : Value) (f : Value -> M Value) (st : State) (o : Obj) :
  heap st !! this = Some o ->
  (priv_value o = Nothing ->
   _Option.unwrapOr this def st = (Normal def, st)
   /\ _Option.mapOr this def f st = (Normal def, st))
  /\ (forall v,
        priv_value o = Held v ->
        _Option.unwrapOr this def st = (Normal v, st)
        /\ (forall r st1,
              f v st = (Normal r, st1) ->
              _Option.mapOr this def f st = (Normal r, st1))
        /\ (forall e st1,
              f v st = (Thrown e, st1) ->
              _Option.mapOr this def f st = (Normal def, st1))).
Proof.
  intros H. unfold _Option.unwrapOr, _Option.mapOr. split.
  - intros Hv. split; js_run2; reflexivity.
  - intros v Hv. split; [|split].
    + js_run2. reflexivity.
    + intros r st1 Hf. js_run2. reflexivity.
    + intros e st1 Hf. js_run2. reflexivity.
Qed.

(** [some(2).mapOr(0, n => n * 2)] is [4],
    [some(2).mapOr(0, _ => { throw new Error() })] is [0] and
    [none().unwrapOr(0)] is [0]. *)
Lemma unwrapOr_mapOr_spec_witness :
  _Option.mapOr 0 (VNumber 0) double x_is_some_2
  = (Normal (VNumber 4), x_is_some_2)
  /\ _Option.mapOr 0 (VNumber 0) throws_Error x_is_some_2
     = (Normal (VNumber 0), x_is_some_2)
  /\ _Option.unwrapOr 0 (VNumber 0) y_is_none = (Normal (VNumber 0), y_is_none).
Proof.
  pose proof (unwrapOr_mapOr_spec 0 (VNumber 0) double x_is_some_2
                (sync (Held (VNumber 2))) eq_refl) as (_ & Hd).
  pose proof (unwrapOr_mapOr_spec 0 (VNumber 0) throws_Error x_is_some_2
                (sync (Held (VNumber 2))) eq_refl) as (_ & Ht).
  pose proof (unwrapOr_mapOr_spec 0 (VNumber 0) double y_is_none
                (sync Nothing) eq_refl) as (He & _).
  destruct (Hd (VNumber 2) eq_refl) as (_ & Hd1 & _).
  destruct (Ht (VNumber 2) eq_refl) as (_ & _ & Ht1).
  split; [apply (Hd1 (VNumber 4) x_is_some_2); reflexivity|].
  split; [apply (Ht1 (VError "") x_is_some_2); reflexivity|].
  apply (He eq_refl).
Defined.

(** ** [map], [filter], [andThen], [inspect], [getOrInsertWith] when the
    callback returns *)



Lemma inspect_then_empty this st o v f st1 o1 :
  heap st !! this = Some o -> priv_value o = Held v ->
  (exists r, f v st = (Normal r, st1)) \/ (exists e, f v st = (Thrown e, st1)) ->
  heap st1 !! this = Some o1 -> priv_value o1 = Nothing ->
  _Option.inspect this f st
  = (Thrown (VAnyError "`value` is accessed on `None`" NoneValueAccessed
                       VUndefined), st1).
Proof.
  intros H Hv [[r Hf]|[e Hf]] H1 Hv1; unfold _Option.inspect; js_run2;
    reflexivity.
Qed.

(** [inspect(f)] on a live Option holding [v] calls [f] on [v] once and
    drops what [f] returns or throws.  [st1] is the state [f] leaves and
    [o1] the receiver in it.  If the receiver still holds a value, the
    result is a new Option, not the receiver itself, holding that value.
    If [f] has emptied the receiver, the final read of the slot throws the
    [NoneValueAccessed] error to the caller and nothing is allocated. *)
Theorem inspect_occupied
  (this : loc) (st : State) (o : Obj) (v : Value) (f : Value -> M Value)
  (st1 : State) (o1 : Obj) :
  heap st !! this = Some o ->
  priv_value o = Held v ->
  (exists r, f v st = (Normal r, st1)) \/ (exists e, f v st = (Thrown e, st1)) ->
  heap st1 !! this = Some o1 ->
  (forall v1,
     priv_value o1 = Held v1 ->
     _Option.inspect this f st
     = (Normal (VOption (fresh st1)), with_some v1 st1)
     /\ fresh st1 <> this)
  /\ (priv_value o1 = Nothing ->
      _Option.inspect this f st
      = (Thrown (VAnyError "`value` is accessed on `None`" NoneValueAccessed
                           VUndefined), st1)).
Proof.
  intros H Hv Hf H1. split.
  - intros v1 Hv1. split.
    + destruct Hf as [[r Hf]|[e Hf]].
      * now apply (inspect_returns this st o v f r st1 o1 v1).
      * now apply (inspect_throws this st o v f e st1 o1 v1).
    + intros E. now apply (fresh_not_live _ _ _ H1).
  - intros Hv1. now apply (inspect_then_empty this st o v f st1 o1).
Qed.

(** [some(2).inspect(_ => { throw new Error() })] is [some(2)];
    [x.inspect(_ => x.take())] on [x = some(2)] throws. *)
Lemma inspect_occupied_witness :
  _Option.inspect 0 throws_Error x_is_some_2
  = (Normal (VOption 1), with_some (VNumber 2) x_is_some_2)
  /\ _Option.inspect 0 takes_it x_is_some_2
     = (Thrown (VAnyError "`value` is accessed on `None`" NoneValueAccessed
                          VUndefined), x_was_taken).
Proof.
  assert (Hthrows :
            (exists r, throws_Error (VNumber 2) x_is_some_2
                       = (@Normal Value r, x_is_some_2))
            \/ (exists e, throws_Error (VNumber 2) x_is_some_2
                          = (@Thrown Value e, x_is_some_2)))
    by (right; exists (VError ""); reflexivity).
  assert (Htakes :
            (exists r, takes_it (VNumber 2) x_is_some_2
                       = (Normal r, x_was_taken))
            \/ (exists e, takes_it (VNumber 2) x_is_some_2
                          = (Thrown e, x_was_taken)))
    by (left; exists (VOption 1); reflexivity).
  pose proof (inspect_occupied 0 x_is_some_2 (sync (Held (VNumber 2)))
                (VNumber 2) throws_Error x_is_some_2 (sync (Held (VNumber 2)))
                eq_refl eq_refl Hthrows eq_refl) as (Hkept & _).
  pose proof (inspect_occupied 0 x_is_some_2 (sync (Held (VNumber 2)))
                (VNumber 2) takes_it x_was_taken (sync Nothing)
                eq_refl eq_refl Htakes eq_refl) as (_ & Hemptied).
  split.
  - apply (Hkept (VNumber 2)). reflexivity.
  - apply Hemptied. reflexivity.
Defined.

(** ** [and], [or], [xor] *)

Section SiblingFacts.

Variable pending_and pending_or pending_xor : Value -> Value -> M Value.

(** [and(x)] and [or(x)] with an argument that is not a promise, on a live
    Option.  When [and] has an occupied receiver and when [or] has an empty
    one, the result is the argument [x] itself, the same reference, and the
    state is unchanged; otherwise the result is a new instance: an empty
    Option for [and], a copy of the receiver for [or]. *)
Theorem and_or_spec (this : loc) (x : Value) (st : State) (o : Obj) :
  heap st !! this = Some o ->
  isPromise x = false ->
  (priv_value o = Nothing ->
   _Option.and pending_and this x st
   = (Normal (VOption (fresh st)), with_none st)
   /\ _Option.or pending_or this x st = (Normal x, st))
  /\ (forall v,
        priv_value o = Held v ->
        _Option.and pending_and this x st = (Normal x, st)
        /\ _Option.or pending_or this x st
           = (Normal (VOption (fresh st)), with_some v st)).
Proof.
  intros H Hx. unfold _Option.and, _Option.or. rewrite Hx. split.
  - intros Hv. split; js_run2; reflexivity.
  - intros v Hv. split; js_run2; reflexivity.
Qed.

(** [xor(y)] with an Option [y], on a live Option: the result is always a
    new instance, never one of the two operands.  It holds the value of the
    one operand that is occupied when exactly one is, and is empty when
    both or neither are. *)
Theorem xor_spec (this ly : loc) (st : State) (o oy : Obj) :
  heap st !! this = Some o ->
  heap st !! ly = Some oy ->
  (forall w,
     priv_value o = Nothing -> priv_value oy = Held w ->
     _Option.xor pending_xor this (VOption ly) st
     = (Normal (VOption (fresh st)), with_some w st))
  /\ (forall v,
        priv_value o = Held v -> priv_value oy = Nothing ->
        _Option.xor pending_xor this (VOption ly) st
        = (Normal (VOption (fresh st)), with_some v st))
  /\ (priv_value o = Nothing -> priv_value oy = Nothing ->
      _Option.xor pending_xor this (VOption ly) st
      = (Normal (VOption (fresh st)), with_none st))
  /\ (forall v w,
        priv_value o = Held v -> priv_value oy = Held w ->
        _Option.xor pending_xor this (VOption ly) st
        = (Normal (VOption (fresh st)), with_none st))
  /\ fresh st <> this /\ fresh st <> ly.
Proof.
  intros H Hy. unfold _Option.xor.
  split; [|split; [|split; [|split; [|split]]]].
  - intros w Hv Hw. js_run2. reflexivity.
  - intros v Hv Hw. js_run2. reflexivity.
  - intros Hv Hw. js_run2. reflexivity.
  - intros v w Hv Hw. js_run2. reflexivity.
  - intros E. now apply (fresh_not_live _ _ _ H).
  - intros E. now apply (fresh_not_live _ _ _ Hy).
Qed.

(** The overloads of [and], [or] and [xor] for a promise [x], on a live
    Option: each allocates a copy of the receiver, lifts the copy into the
    asynchronous sibling and hands it with [x] to the sibling's combinator
    of the same name; the sibling never gets the receiver itself. *)
Theorem async_overloads_delegate (this : loc) (x : pid) (st : State) (o : Obj) :
  heap st !! this = Some o ->
  let lifted := VPendingOption (VOption (fresh st)) in
  let st' := with_copy (priv_value o) st in
  fresh st <> this
  /\ heap st' !! fresh st = Some (sync (priv_value o))
  /\ _Option.and pending_and this (VPromise x) st
     = pending_and lifted (VPromise x) st'
  /\ _Option.or pending_or this (VPromise x) st
     = pending_or lifted (VPromise x) st'
  /\ _Option.xor pending_xor this (VPromise x) st
     = pending_xor lifted (VPromise x) st'.
Proof.
  intros H lifted st'.
  assert (Hl : _Option.toPendingOption this st = (Normal lifted, st')).
  { unfold _Option.toPendingOption.
    now rewrite (bind_normal _ _ _ _ _ (clone_run _ _ _ H)). }
  split; [intros E; now apply (fresh_not_live _ _ _ H)|].
  split; [apply lookup_fresh_with_copy|].
  unfold _Option.and, _Option.or, _Option.xor. cbn [isPromise].
  now rewrite !(bind_normal _ _ _ _ _ Hl).
Qed.

End SiblingFacts.

(** [x = some(2)], [y = none()]: [x.and(y)] is [y] itself, [y.or(x)] is [x]
    itself, [y.and(x)] is a new empty Option and [x.or(y)] a new Option
    holding [2]. *)
Lemma and_or_spec_witness :
  _Option.and sample_pending 0 (VOption 1) x_some_2_y_none
  = (Normal (VOption 1), x_some_2_y_none)
  /\ _Option.or sample_pending 1 (VOption 0) x_some_2_y_none
     = (Normal (VOption 0), x_some_2_y_none)
  /\ _Option.and sample_pending 1 (VOption 0) x_some_2_y_none
     = (Normal (VOption 2), with_none x_some_2_y_none)
  /\ _Option.or sample_pending 0 (VOption 1) x_some_2_y_none
     = (Normal (VOption 2), with_some (VNumber 2) x_some_2_y_none).
Proof.
  pose proof (and_or_spec sample_pending sample_pending 0 (VOption 1)
                x_some_2_y_none (sync (Held (VNumber 2))) eq_refl eq_refl)
    as (_ & Hx).
  pose proof (and_or_spec sample_pending sample_pending 1 (VOption 0)
                x_some_2_y_none (sync Nothing) eq_refl eq_refl) as (Hy & _).
  destruct (Hx (VNumber 2) eq_refl) as (Hx1 & Hx2).
  destruct (Hy eq_refl) as (Hy1 & Hy2).
  split; [exact Hx1|]. split; [exact Hy2|]. split; [exact Hy1 | exact Hx2].
Defined.

(** [x = some(2)], [y = none()]: [x.xor(y)] and [y.xor(x)] are new Options
    holding [2]; [x.xor(x)] and [y.xor(y)] are new empty Options. *)
Lemma xor_spec_witness :
  _Option.xor sample_pending 0 (VOption 1) x_some_2_y_none
  = (Normal (VOption 2), with_some (VNumber 2) x_some_2_y_none)
  /\ _Option.xor sample_pending 1 (VOption 0) x_some_2_y_none
     = (Normal (VOption 2), with_some (VNumber 2) x_some_2_y_none)
  /\ _Option.xor sample_pending 0 (VOption 0) x_some_2_y_none
     = (Normal (VOption 2), with_none x_some_2_y_none)
  /\ _Option.xor sample_pending 1 (VOption 1) x_some_2_y_none
     = (Normal (VOption 2), with_none x_some_2_y_none).
Proof.
  pose proof (xor_spec sample_pending 0 1 x_some_2_y_none
                (sync (Held (VNumber 2))) (sync Nothing) eq_refl eq_refl)
    as (_ & Hxy & _).
  pose proof (xor_spec sample_pending 1 0 x_some_2_y_none
                (sync Nothing) (sync (Held (VNumber 2))) eq_refl eq_refl)
    as (Hyx & _).
  pose proof (xor_spec sample_pending 0 0 x_some_2_y_none
                (sync (Held (VNumber 2))) (sync (Held (VNumber 2)))
                eq_refl eq_refl) as (_ & _ & _ & Hxx & _).
  pose proof (xor_spec sample_pending 1 1 x_some_2_y_none
                (sync Nothing) (sync Nothing) eq_refl eq_refl)
    as (_ & _ & Hyy & _).
  split; [apply (Hxy (VNumber 2)); reflexivity|].
  split; [apply (Hyx (VNumber 2)); reflexivity|].
  split; [apply (Hxx (VNumber 2) (VNumber 2)); reflexivity|].
  apply Hyy; reflexivity.
Defined.

(** [x = some(2); x.and(p)] for a promise [p] hands the sibling a lifted
    copy of [x], allocated at location [1]. *)
Lemma async_overloads_delegate_witness :
  _Option.and sample_pending 0 (VPromise 7) x_is_some_2
  = sample_pending (VPendingOption (VOption 1)) (VPromise 7)
      (with_some (VNumber 2) x_is_some_2).
Proof.
  apply (async_overloads_delegate sample_pending sample_pending sample_pending
           0 7 x_is_some_2 (sync (Held (VNumber 2)))).
  reflexivity.
Defined.

(** ** [orElse], [okOr], [okOrElse], [flatten] *)

(** [orElse(f)] on a live Option: if it holds [v] the result is a new Option
    holding [v] and [f] is not called; if it is empty the result is what [f]
    returns, that very reference, or a new empty Option when [f] throws.
    Nothing is propagated. *)
Theorem orElse_spec (this : loc) (f : M Value) (st : State) (o : Obj) :
  heap st !! this = Some o ->
  (forall v,
     priv_value o = Held v ->
     _Option.orElse this f st = (Normal (VOption (fresh st)), with_some v st))
  /\ (forall r st1,
        priv_value o = Nothing -> f st = (Normal r, st1) ->
        _Option.orElse this f st = (Normal r, st1))
  /\ (forall e st1,
        priv_value o = Nothing -> f st = (Thrown e, st1) ->
        _Option.orElse this f st
        = (Normal (VOption (fresh st1)), with_none st1)).
Proof.
  intros H. unfold _Option.orElse. split; [|split].
  - intros v Hv. js_run2. reflexivity.
  - intros r st1 Hv Hf. js_run2. reflexivity.
  - intros e st1 Hv Hf. js_run2. reflexivity.
Qed.

(** [some(2).orElse(f)] is [some(2)]; [none().orElse(() => { throw ... })]
    is [none()]. *)
Lemma orElse_spec_witness :
  _Option.orElse 0 five x_is_some_2
  = (Normal (VOption 1), with_some (VNumber 2) x_is_some_2)
  /\ _Option.orElse 0 (throw (VError "")) y_is_none
     = (Normal (VOption 1), with_none y_is_none).
Proof.
  pose proof (orElse_spec 0 five x_is_some_2 (sync (Held (VNumber 2))) eq_refl)
    as (Hocc & _).
  pose proof (orElse_spec 0 (throw (VError "")) y_is_none (sync Nothing)
                eq_refl) as (_ & _ & Hthrow).
  split.
  - apply (Hocc (VNumber 2)). reflexivity.
  - apply (Hthrow (VError "") y_is_none); reflexivity.
Defined.

(** [okOr(y)] and [okOrElse(mkErr)] on a live Option: if it holds [v] both
    return [Ok(v)] and [mkErr] is not called; if it is empty [okOr] returns
    [Err(y)] and [okOrElse] returns [Err] of what [mkErr] returns.  When
    [mkErr] throws, [okOrElse] lets the thrown value through as it is,
    neither caught nor wrapped. *)
Theorem okOr_okOrElse_spec
  (this : loc) (y : Value) (mkErr : M Value) (st : State) (o : Obj) :
  heap st !! this = Some o ->
  (forall v,
     priv_value o = Held v ->
     _Option.okOr this y st = (Normal (VOk v), st)
     /\ _Option.okOrElse this mkErr st = (Normal (VOk v), st))
  /\ (priv_value o = Nothing ->
      _Option.okOr this y st = (Normal (VErr y), st)
      /\ (forall e st1,
            mkErr st = (Normal e, st1) ->
            _Option.okOrElse this mkErr st = (Normal (VErr e), st1))
      /\ (forall e st1,
            mkErr st = (Thrown e, st1) ->
            _Option.okOrElse this mkErr st = (Thrown e, st1))).
Proof.
  intros H. unfold _Option.okOr, _Option.okOrElse, ok, err. split.
  - intros v Hv. split; js_run2; reflexivity.
  - intros Hv. split; [|split].
    + js_run2. reflexivity.
    + intros e st1 Hf. js_run2. reflexivity.
    + intros e st1 Hf. js_run2. reflexivity.
Qed.

(** [some(2).okOr("error")] is [Ok(2)], [none().okOr("error")] is
    [Err("error")], and [none().okOrElse(() => { throw new Error() })]
    throws that error. *)
Lemma okOr_okOrElse_spec_witness :
  _Option.okOr 0 (VString "error") x_is_some_2
  = (Normal (VOk (VNumber 2)), x_is_some_2)
  /\ _Option.okOr 0 (VString "error") y_is_none
     = (Normal (VErr (VString "error")), y_is_none)
  /\ _Option.okOrElse 0 (throw (VError "")) y_is_none
     = (Thrown (VError ""), y_is_none).
Proof.
  pose proof (okOr_okOrElse_spec 0 (VString "error") five x_is_some_2
                (sync (Held (VNumber 2))) eq_refl) as (Hocc & _).
  pose proof (okOr_okOrElse_spec 0 (VString "error") (throw (VError ""))
                y_is_none (sync Nothing) eq_refl) as (_ & Hemp).
  destruct (Hocc (VNumber 2) eq_refl) as (H1 & _).
  destruct (Hemp eq_refl) as (H2 & _ & H3).
  split; [exact H1|]. split; [exact H2|].
  apply (H3 (VError "") y_is_none). reflexivity.
Defined.

(** [flatten()] on a live Option: an empty Option gives a new empty Option;
    an Option holding a live Option gives a new instance with the slot of
    that inner Option, distinct from both; an Option holding a value that
    is not an Option gives a new Option holding that value. *)
Theorem flatten_spec (this : loc) (st : State) (o : Obj) :
  heap st !! this = Some o ->
  (priv_value o = Nothing ->
   _Option.flatten this st = (Normal (VOption (fresh st)), with_none st))
  /\ (forall inner oi,
        priv_value o = Held (VOption inner) -> heap st !! inner = Some oi ->
        _Option.flatten this st
        = (Normal (VOption (fresh st)), with_copy (priv_value oi) st)
        /\ fresh st <> inner /\ fresh st <> this
        /\ heap (with_copy (priv_value oi) st) !! fresh st
           = Some (sync (priv_value oi)))
  /\ (forall x,
        priv_value o = Held x -> isOption x = false ->
        _Option.flatten this st
        = (Normal (VOption (fresh st)), with_some x st)).
Proof.
  intros H. unfold _Option.flatten. split; [|split].
  - intros Hv. js_run2. reflexivity.
  - intros inner oi Hv Hi. split; [|split; [|split]].
    + js_run2. reflexivity.
    + intros E. now apply (fresh_not_live _ _ _ Hi).
    + intros E. now apply (fresh_not_live _ _ _ H).
    + apply lookup_fresh_with_copy.
  - intros x Hv Hx. js_run2. rewrite Hx. js_run2. reflexivity.
Qed.

(** [some(some(6)).flatten()] is a new [some(6)]; [some(2).flatten()] is a
    new [some(2)]. *)
Lemma flatten_spec_witness :
  _Option.flatten 1 x_is_some_some_6
  = (Normal (VOption 2), with_some (VNumber 6) x_is_some_some_6)
  /\ _Option.flatten 0 x_is_some_2
     = (Normal (VOption 1), with_some (VNumber 2) x_is_some_2).
Proof.
  pose proof (flatten_spec 1 x_is_some_some_6 (sync (Held (VOption 0)))
                eq_refl) as (_ & Hin & _).
  pose proof (flatten_spec 0 x_is_some_2 (sync (Held (VNumber 2))) eq_refl)
    as (_ & _ & Hplain).
  split.
  - apply (Hin 0 (sync (Held (VNumber 6)))); reflexivity.
  - apply (Hplain (VNumber 2)); reflexivity.
Defined.

(** ** [isSomeAnd] *)

(** [isSomeAnd(f)] on a live Option never calls [f] and never throws: it
    answers [true] if the Option is occupied and [false] if it is empty,
    and the state is unchanged, whatever [f] is. *)
Theorem isSomeAnd_answers_isSome
  (this : loc) (st : State) (o : Obj) (f : Value -> M bool) :
  heap st !! this = Some o ->
  (forall v,
     priv_value o = Held v ->
     _Option.isSomeAnd this f st = (Normal true, st))
  /\ (priv_value o = Nothing ->
      _Option.isSomeAnd this f st = (Normal false, st)).
Proof.
  intros H. rewrite (isSomeAnd_run _ _ _ f H).
  split; [intros v Hv | intros Hv]; now rewrite Hv.
Qed.

(** [x = some(2)]: [x.isSomeAnd(f)] is [true] for a predicate that throws;
    [y = none()]: [y.isSomeAnd(n => n > 0)] is [false]. *)
Lemma isSomeAnd_answers_isSome_witness :
  _Option.isSomeAnd 0 throws_Error x_is_some_2 = (Normal true, x_is_some_2)
  /\ _Option.isSomeAnd 0 is_positive y_is_none = (Normal false, y_is_none).
Proof.
  pose proof (isSomeAnd_answers_isSome 0 x_is_some_2 (sync (Held (VNumber 2)))
                throws_Error eq_refl) as (Hocc & _).
  pose proof (isSomeAnd_answers_isSome 0 y_is_none (sync Nothing) is_positive
                eq_refl) as (_ & Hemp).
  split.
  - apply (Hocc (VNumber 2)). reflexivity.
  - apply Hemp. reflexivity.
Defined.

(** ** The defaulting combinators *)

Section Defaulting.

Variable stringify : Value -> string.
Variable AnyError_extends_Error : bool.

(** [getOrInsertWith(f)] on a live Option when [f] does not fail: if the
    Option holds [v], [v] is returned, [f] is not called and the state is
    unchanged; if it is empty and [f] returns [x], one call of [#setValue]
    writes [x] and [x] is returned. *)
Theorem getOrInsertWith_spec (this : loc) (f : M Value) (st : State) (o : Obj) :
  heap st !! this = Some o ->
  (forall v,
     priv_value o = Held v ->
     _Option.getOrInsertWith stringify AnyError_extends_Error this f st
     = (Normal v, st))
  /\ (forall x st1 o1,
        priv_value o = Nothing -> f st = (Normal x, st1) ->
        heap st1 !! this = Some o1 ->
        _Option.getOrInsertWith stringify AnyError_extends_Error this f st
        = (Normal x, written this (Held x) st1)).
Proof.
  intros H. unfold _Option.getOrInsertWith. split.
  - intros v Hv. js_run2. reflexivity.
  - intros x st1 o1 Hv Hf H1. js_run2. reflexivity.
Qed.

(** [unwrapOrElse(mkDef)] on a live Option: if it holds [v], [v] is
    returned and [mkDef] is not called; if it is empty the result is what
    [mkDef] returns.  When [mkDef] throws [e], [e] is rethrown as it is if
    it is an [AnyError], and otherwise an [AnyError] with the reason
    [PredicateException] and the cause [e] is thrown. *)
Theorem unwrapOrElse_spec (this : loc) (mkDef : M Value) (st : State) (o : Obj) :
  heap st !! this = Some o ->
  (forall v,
     priv_value o = Held v ->
     _Option.unwrapOrElse stringify AnyError_extends_Error this mkDef st
     = (Normal v, st))
  /\ (forall d st1,
        priv_value o = Nothing -> mkDef st = (Normal d, st1) ->
        _Option.unwrapOrElse stringify AnyError_extends_Error this mkDef st
        = (Normal d, st1))
  /\ (forall e st1,
        priv_value o = Nothing -> mkDef st = (Thrown e, st1) ->
        _Option.unwrapOrElse stringify AnyError_extends_Error this mkDef st
        = (Thrown
             (if instanceof_AnyError e then e
              else mkAnyError stringify AnyError_extends_Error
                     "unwrapOrElse callback threw an exception"
                     PredicateException e),
           st1)).
Proof.
  intros H. unfold _Option.unwrapOrElse.
  split; [|split].
  - intros v Hv. js_run2. reflexivity.
  - intros d st1 Hv Hf. js_run2. reflexivity.
  - intros e st1 Hv Hf. js_run2. now destruct (instanceof_AnyError e).
Qed.

(** [match(f, g)] on a live Option runs exactly one branch: [f] on the
    contained value if there is one, [g] otherwise.  If the branch returns,
    that is the result.  If it throws [e], [e] is rethrown as it is if it
    is an [AnyError], and otherwise an [AnyError] with the reason
    [PredicateException] and the cause [e] is thrown. *)
Theorem match_spec
  (this : loc) (f : Value -> M Value) (g : M Value) (st : State) (o : Obj) :
  heap st !! this = Some o ->
  let branch :=
    match priv_value o with
    | Held v => f v
    | Nothing => g
    end in
  (forall r st1,
     branch st = (Normal r, st1) ->
     _Option.match_ stringify AnyError_extends_Error this f g st
     = (Normal r, st1))
  /\ (forall e st1,
        branch st = (Thrown e, st1) ->
        _Option.match_ stringify AnyError_extends_Error this f g st
        = (Thrown
             (if instanceof_AnyError e then e
              else mkAnyError stringify AnyError_extends_Error
                     "one of match predicates threw an exception"
                     PredicateException e),
           st1)).
Proof.
  intros H branch. subst branch.
  unfold _Option.match_.
  destruct (priv_value o) as [|v] eqn:Hv; split.
  - intros r st1 Hf. js_run2. reflexivity.
  - intros e st1 Hf. js_run2. now destruct (instanceof_AnyError e).
  - intros r st1 Hf. js_run2. reflexivity.
  - intros e st1 Hf. js_run2. now destruct (instanceof_AnyError e).
Qed.

(** [mapOrElse(mkDef, f)] on a live Option.  The default is what [mkDef]
    returns; when [mkDef] throws, an [AnyError] with the reason
    [PredicateException] is thrown around the failure, also around one that
    is already an [AnyError].  An empty Option gives the default.  An
    Option holding [v] gives the result of [f] on [v]; when [f] throws an
    [AnyError], that error is rethrown as it is and [mkDef] is not called;
    when [f] throws anything else, the default is given. *)
Theorem mapOrElse_spec
  (this : loc) (mkDef : M Value) (f : Value -> M Value) (st : State) (o : Obj) :
  heap st !! this = Some o ->
  let default_from s :=
    match mkDef s with
    | (Thrown e, s') =>
        (Thrown (mkAnyError stringify AnyError_extends_Error
                   "mapOrElse `mkDef` callback threw an exception"
                   PredicateException e), s')
    | r => r
    end in
  (priv_value o = Nothing ->
   _Option.mapOrElse stringify AnyError_extends_Error this mkDef f st
   = default_from st)
  /\ (forall v r st1,
        priv_value o = Held v -> f v st = (Normal r, st1) ->
        _Option.mapOrElse stringify AnyError_extends_Error this mkDef f st
        = (Normal r, st1))
  /\ (forall v e st1,
        priv_value o = Held v -> f v st = (Thrown e, st1) ->
        instanceof_AnyError e = true ->
        _Option.mapOrElse stringify AnyError_extends_Error this mkDef f st
        = (Thrown e, st1))
  /\ (forall v e st1,
        priv_value o = Held v -> f v st = (Thrown e, st1) ->
        instanceof_AnyError e = false ->
        _Option.mapOrElse stringify AnyError_extends_Error this mkDef f st
        = default_from st1).
Proof.
  intros H default_from. subst default_from.
  unfold _Option.mapOrElse. cbv zeta.
  split; [|split; [|split]].
  - intros Hv. js_run2. now destruct (mkDef st) as [[d|e|] s'].
  - intros v r st1 Hv Hf. js_run2. reflexivity.
  - intros v e st1 Hv Hf He. js_run2. rewrite He. reflexivity.
  - intros v e st1 Hv Hf He. js_run2. rewrite He.
    now destruct (mkDef st1) as [[d|e'|] s'].
Qed.

End Defaulting.

(** [some(2).getOrInsertWith(() => 5)] is [2];
    [none().getOrInsertWith(() => 5)] is [5] and writes [5]. *)
Lemma getOrInsertWith_spec_witness :
  _Option.getOrInsertWith sample_stringify true 0 five x_is_some_2
  = (Normal (VNumber 2), x_is_some_2)
  /\ _Option.getOrInsertWith sample_stringify true 0 five y_is_none
     = (Normal (VNumber 5), written 0 (Held (VNumber 5)) y_is_none).
Proof.
  pose proof (getOrInsertWith_spec sample_stringify true 0 five x_is_some_2
                (sync (Held (VNumber 2))) eq_refl) as (Hocc & _).
  pose proof (getOrInsertWith_spec sample_stringify true 0 five y_is_none
                (sync Nothing) eq_refl) as (_ & Hemp).
  split.
  - apply (Hocc (VNumber 2)). reflexivity.
  - apply (Hemp (VNumber 5) y_is_none (sync Nothing)); reflexivity.
Defined.

(** [none().unwrapOrElse(() => 5)] is [5];
    [none().unwrapOrElse(() => { throw "boom" })] throws the wrapped error;
    [y.unwrapOrElse(() => y.unwrap())] on [y = none()] throws the
    [NoneUnwrapped] error of [unwrap] as it is. *)
Lemma unwrapOrElse_spec_witness :
  _Option.unwrapOrElse sample_stringify true 0 five y_is_none
  = (Normal (VNumber 5), y_is_none)
  /\ _Option.unwrapOrElse sample_stringify true 0 (throw (VString "boom"))
       y_is_none
     = (Thrown (VAnyError "unwrapOrElse callback threw an exception"
                  PredicateException (VError "boom")), y_is_none)
  /\ _Option.unwrapOrElse sample_stringify true 0 (_Option.unwrap 0) y_is_none
     = (Thrown NoneUnwrapped_error, y_is_none).
Proof.
  pose proof (unwrapOrElse_spec sample_stringify true 0 five y_is_none
                (sync Nothing) eq_refl) as (_ & Hret & _).
  pose proof (unwrapOrElse_spec sample_stringify true 0
                (throw (VString "boom")) y_is_none (sync Nothing) eq_refl)
    as (_ & _ & Hboom).
  pose proof (unwrapOrElse_spec sample_stringify true 0 (_Option.unwrap 0)
                y_is_none (sync Nothing) eq_refl) as (_ & _ & Hany).
  split; [apply (Hret (VNumber 5) y_is_none); reflexivity|].
  split.
  - apply (Hboom (VString "boom") y_is_none); reflexivity.
  - apply (Hany NoneUnwrapped_error y_is_none); reflexivity.
Defined.

(** [some(2).match(n => n * 2, () => 0)] is [4];
    [some(2).match(_ => { throw new Error() }, () => 0)] throws the wrapped
    error. *)
Lemma match_spec_witness :
  _Option.match_ sample_stringify true 0 double five x_is_some_2
  = (Normal (VNumber 4), x_is_some_2)
  /\ _Option.match_ sample_stringify true 0 throws_Error five x_is_some_2
     = (Thrown (VAnyError "one of match predicates threw an exception"
                  PredicateException (VError "")), x_is_some_2).
Proof.
  pose proof (match_spec sample_stringify true 0 double five x_is_some_2
                (sync (Held (VNumber 2))) eq_refl) as (Hret & _).
  pose proof (match_spec sample_stringify true 0 throws_Error five x_is_some_2
                (sync (Held (VNumber 2))) eq_refl) as (_ & Hthrow).
  split.
  - apply (Hret (VNumber 4) x_is_some_2). reflexivity.
  - apply (Hthrow (VError "") x_is_some_2). reflexivity.
Defined.

(** [some(2).mapOrElse(() => 5, _ => { throw new Error() })] is [5];
    [x.mapOrElse(() => 5, _ => y.unwrap())] with [y = none()] throws the
    [NoneUnwrapped] error of [unwrap] and does not fall back to [5];
    [none().mapOrElse(() => { throw "boom" }, f)] throws the wrapped
    error. *)
Lemma mapOrElse_spec_witness :
  _Option.mapOrElse sample_stringify true 0 five throws_Error x_is_some_2
  = (Normal (VNumber 5), x_is_some_2)
  /\ _Option.mapOrElse sample_stringify true 0 five
       (fun _ => _Option.unwrap 1) x_some_2_y_none
     = (Thrown NoneUnwrapped_error, x_some_2_y_none)
  /\ _Option.mapOrElse sample_stringify true 0 (throw (VString "boom")) double
       y_is_none
     = (Thrown (VAnyError "mapOrElse `mkDef` callback threw an exception"
                  PredicateException (VError "boom")), y_is_none).
Proof.
  pose proof (mapOrElse_spec sample_stringify true 0 five throws_Error
                x_is_some_2 (sync (Held (VNumber 2))) eq_refl)
    as (_ & _ & _ & Hfall).
  pose proof (mapOrElse_spec sample_stringify true 0 five
                (fun _ => _Option.unwrap 1) x_some_2_y_none
                (sync (Held (VNumber 2))) eq_refl) as (_ & _ & Hany & _).
  pose proof (mapOrElse_spec sample_stringify true 0 (throw (VString "boom"))
                double y_is_none (sync Nothing) eq_refl) as (Hemp & _).
  split; [apply (Hfall (VNumber 2) (VError "") x_is_some_2); reflexivity|].
  split.
  - apply (Hany (VNumber 2) NoneUnwrapped_error x_some_2_y_none); reflexivity.
  - apply Hemp. reflexivity.
Defined.

(** ** What the non-mutating operations leave alone *)

Lemma keeps_call {A} P (y : Value) (m : loc -> M A) :
  (forall l, keeps P (m l)) -> keeps P (call y m).
Proof. intros Hm. destruct y; cbn; try (intros st H; exact H). apply Hm. Qed.

Lemma keeps_then_setValue P x this :
  (forall st r, P st -> P (registered r st)) ->
  keeps P (_Option.then_setValue x this).
Proof. intros HP st H. now apply HP. Qed.

Create HintDb alloc discriminated.

Section AllocationOnly.

Variable P : State -> Prop.
Hypothesis P_none : keeps P _Option.none.
Hypothesis P_some : forall v, keeps P (_Option.some v).
Hypothesis P_registered : forall st r, P st -> P (registered r st).

#[local] Hint Resolve P_none P_some : alloc.
#[local] Hint Resolve keeps_ret keeps_throw keeps_deref keeps_isNone
  keeps_isSome keeps_value : alloc.

Ltac alloc_auto :=
  repeat
    (first
       [ solve [ eauto with alloc ]
       | apply keeps_bind; [| intros ? ]
       | apply keeps_try_catch; [| intros ? ]
       | apply keeps_if
       | apply keeps_call; intros ?
       | apply keeps_then_setValue; exact P_registered ]).

Lemma keeps_clone' this : keeps P (_Option.clone this).
Proof. unfold _Option.clone. alloc_auto. Qed.

#[local] Hint Resolve keeps_clone' : alloc.

(** A public operation that is not one of the mutating ones changes the
    state only by allocating new instances with [some] and [none], by
    registering a reaction, and through what it is handed. *)
Lemma readers_only_allocate : kept_by_readers P.
Proof.
  unfold kept_by_readers. repeat apply conj.
  - intros this. alloc_auto.
  - intros this. alloc_auto.
  - intros this. alloc_auto.
  - intros this. unfold _Option.unwrap. alloc_auto.
  - intros this msg. unfold _Option.expect. alloc_auto.
  - intros this def. unfold _Option.unwrapOr. alloc_auto.
  - intros this. alloc_auto.
  - intros this. unfold _Option.toPendingOption. alloc_auto.
  - intros this y. unfold _Option.okOr. alloc_auto.
  - intros this. unfold _Option.flatten. alloc_auto.
  - intros this. unfold _Option.transposeResult. alloc_auto.
  - intros this x. unfold _Option.replace. alloc_auto.
  - intros this f Hf. unfold _Option.map. alloc_auto.
  - intros this f Hf. unfold _Option.filter. alloc_auto.
  - intros this f Hf. unfold _Option.andThen. alloc_auto.
  - intros this f Hf. unfold _Option.inspect. alloc_auto.
  - intros this f Hf. unfold _Option.isNoneOr. alloc_auto.
  - intros this f st H. destruct (heap st !! this) as [o|] eqn:E.
    + now rewrite (isSomeAnd_run _ _ _ f E).
    + unfold _Option.isSomeAnd, _Option.isSome, _Option.isNone, deref, bind.
      now rewrite E.
  - intros this def f Hf. unfold _Option.mapOr. alloc_auto.
  - intros this f Hf. unfold _Option.orElse. alloc_auto.
  - intros this f Hf. unfold _Option.okOrElse. alloc_auto.
  - intros stringify ext this mkDef f Hd Hf. unfold _Option.mapOrElse.
    cbv zeta. alloc_auto.
  - intros stringify ext this f g Hf Hg. unfold _Option.match_. alloc_auto.
  - intros stringify ext this mkDef Hd. unfold _Option.unwrapOrElse.
    alloc_auto.
  - intros pending this x Hp. split; [|split].
    + unfold _Option.and, _Option.toPendingOption. alloc_auto.
    + unfold _Option.or, _Option.toPendingOption. alloc_auto.
    + unfold _Option.xor, _Option.toPendingOption. alloc_auto.
  - intros stringify stringify_nothing this. unfold _Option.toString.
    alloc_auto.
  - intros Promise_resolve then_some this Hr Ht.
    unfold _Option.transposeAwaitable. alloc_auto.
  - exact P_some.
  - exact P_none.
Qed.

End AllocationOnly.

(** A public operation that is not one of the mutating ones never changes
    an instance that exists when it is called: whatever it allocates, every
    Option of the heap, the receiver included, is afterwards what it was
    before, provided the callbacks, the sibling's combinators and the
    promise runtime it is handed change none either.  The deferred
    [replace] is among them: the call itself changes no instance. *)
Theorem readers_leave_instances_alone (l : loc) (o : Obj) :
  kept_by_readers (holds l o).
Proof.
  apply readers_only_allocate.
  - intros st H. rewrite none_run. now apply lookup_with_none.
  - intros v st H. rewrite some_run. now apply lookup_with_some.
  - intros st r H. exact H.
Qed.

(** [x = some(2)]: after [x.map(n => n * 2)], [x.flatten()] and
    [x.replace(p)] for a promise [p], [x] is still [some(2)]. *)
Lemma readers_leave_instances_alone_witness :
  holds 0 (sync (Held (VNumber 2))) (snd (_Option.map 0 double x_is_some_2))
  /\ holds 0 (sync (Held (VNumber 2))) (snd (_Option.flatten 0 x_is_some_2))
  /\ holds 0 (sync (Held (VNumber 2)))
       (snd (_Option.replace 0 (VPromise 7) x_is_some_2)).
Proof.
  pose proof (readers_leave_instances_alone 0 (sync (Held (VNumber 2)))) as K.
  unfold kept_by_readers in K.
  destruct K as (_ & _ & _ & _ & _ & _ & _ & _ & _ & Hflatten & _ & Hreplace
                 & Hmap & _).
  split; [|split].
  - apply (Hmap 0 double); [| reflexivity]. intros v st H. exact H.
  - apply (Hflatten 0). reflexivity.
  - apply (Hreplace 0 7). reflexivity.
Defined.

(** The public operations that are not mutating ones keep the agreement
    of the discriminant field with the slot in every instance of the heap,
    provided the callbacks, the sibling's combinators and the promise
    runtime they are handed keep it. *)
Theorem readers_keep_Inv : kept_by_readers Inv.
Proof.
  apply readers_only_allocate.
  - apply keeps_Inv_none.
  - apply keeps_Inv_some.
  - intros st r H. exact H.
Qed.

(** The agreement after [x.filter(n => n > 0)] and after [x.clone()] on
    [x = some(2)]. *)
Lemma readers_keep_Inv_witness :
  Inv (snd (_Option.filter 0 is_positive x_is_some_2))
  /\ Inv (snd (_Option.clone 0 x_is_some_2)).
Proof.
  pose proof readers_keep_Inv as K. unfold kept_by_readers in K.
  destruct K as (_ & _ & _ & _ & _ & _ & Hclone & _ & _ & _ & _ & _ & _
                 & Hfilter & _).
  assert (Hx : Inv x_is_some_2).
  { constructor; [| constructor]. split; [discriminate | reflexivity]. }
  split.
  - apply (Hfilter 0 is_positive); [| exact Hx]. intros v st H. exact H.
  - apply (Hclone 0). exact Hx.
Defined.

(** In a heap where every instance has its discriminant field in agreement
    with its slot, [isSome()] answers [true] exactly when the discriminant
    field of the receiver is ["some"], and [isNone()] exactly when it is
    ["none"]; neither changes the state. *)
Theorem isSome_agrees_with_phantom (this : loc) (st : State) (o : Obj) :
  Inv st ->
  heap st !! this = Some o ->
  _Option.isSome this st
  = (Normal (match phantom o with PSome => true | PNone => false end), st)
  /\ _Option.isNone this st
     = (Normal (match phantom o with PSome => false | PNone => true end), st).
Proof.
  intros HI H. pose proof (Forall_lookup_1 _ _ _ _ HI H) as [Hs1 Hs2].
  rewrite (isSome_run _ _ _ H), (isNone_run _ _ _ H).
  destruct o as [[] [|v]]; cbn in *; split; try reflexivity.
  - now destruct (Hs1 eq_refl).
  - now destruct (Hs1 eq_refl).
  - assert (E : PNone = PSome) by (apply Hs2; discriminate). discriminate E.
  - assert (E : PNone = PSome) by (apply Hs2; discriminate). discriminate E.
Qed.

(** [some(2).isSome()] is [true] and its discriminant field is ["some"]. *)
Lemma isSome_agrees_with_phantom_witness :
  _Option.isSome 0 x_is_some_2 = (Normal true, x_is_some_2)
  /\ _Option.isNone 0 x_is_some_2 = (Normal false, x_is_some_2).
Proof.
  apply (isSome_agrees_with_phantom 0 x_is_some_2 (sync (Held (VNumber 2)))).
  - constructor; [| constructor]. split; [discriminate | reflexivity].
  - reflexivity.
Defined.

(** ** Several deferred [replace]s *)

Lemma settle_one x s st rs1 r rs2 :
  reactions st = rs1 ++ r :: rs2 ->
  Forall (fun r' => source r' <> x) rs1 ->
  Forall (fun r' => source r' <> x) rs2 ->
  source r = x ->
  settle x s st = snd (_Option.run_reaction r s (set_reactions (rs1 ++ rs2) st)).
Proof.
  intros Hr H1 H2 Hx.
  assert (Hno : forall rs, Forall (fun r' => source r' <> x) rs ->
                List.filter (fun r' => Nat.eqb (source r') x) rs = []
                /\ List.filter (fun r' => negb (Nat.eqb (source r') x)) rs = rs).
  { intros rs Hrs. split; [apply filter_none | apply filter_all];
      (eapply Forall_impl; [exact Hrs|]); cbn; intros r' Hne;
      now destruct (Nat.eqb_spec (source r') x). }
  destruct (Hno rs1 H1) as [E1 E1']. destruct (Hno rs2 H2) as [E2 E2'].
  unfold settle. rewrite Hr, !List.filter_app. cbn [List.filter].
  rewrite Hx, Nat.eqb_refl. cbn [negb].
  now rewrite E1, E1', E2, E2'.
Qed.

Lemma replace_promise_run this x st o :
  heap st !! this = Some o ->
  _Option.replace this (VPromise x) st
  = (Normal (VTuple (VOption (fresh st)) (VPromise (next_promise st))),
     with_copy (priv_value o)
       (registered (mkReaction x this (next_promise st)) st)).
Proof.
  intros H. unfold _Option.replace.
  rewrite (bind_normal _ _ _ _ _ (then_setValue_run x this st)).
  assert (H1 : heap (registered (mkReaction x this (next_promise st)) st)
               !! this = Some o) by exact H.
  now rewrite (bind_normal _ _ _ _ _ (clone_run _ _ _ H1)).
Qed.

Lemma reactions_with_copy s st : reactions (with_copy s st) = reactions st.
Proof. now destruct s. Qed.

Lemma next_promise_with_copy s st :
  next_promise (with_copy s st) = next_promise st.
Proof. now destruct s. Qed.

(** Two deferred [replace]s on one live Option, waiting for different
    promises on which nothing else waits: each write happens when its own
    promise resolves, so the slot ends with the value of the promise that
    resolved last, whichever call came first; a rejection of the other
    promise writes nothing and leaves the value of the one that
    resolved. *)
Theorem deferred_replaces_follow_settlement_order
  (this : loc) (x1 x2 : pid) (a b e : Value) (st : State) (o : Obj) :
  heap st !! this = Some o ->
  x1 <> x2 ->
  Forall (fun r => source r <> x1) (reactions st) ->
  Forall (fun r => source r <> x2) (reactions st) ->
  let st2 :=
    snd (_Option.replace this (VPromise x2)
           (snd (_Option.replace this (VPromise x1) st))) in
  heap st2 !! this = Some o
  /\ heap (settle x1 (Fulfilled a) (settle x2 (Fulfilled b) st2)) !! this
     = Some (mkObj PSome (Held a))
  /\ heap (settle x2 (Fulfilled b) (settle x1 (Fulfilled a) st2)) !! this
     = Some (mkObj PSome (Held b))
  /\ heap (settle x1 (Rejected e) (settle x2 (Fulfilled b) st2)) !! this
     = Some (mkObj PSome (Held b)).
Proof.
  intros H Hne F1 F2 st2. subst st2.
  rewrite (replace_promise_run _ x1 _ _ H). cbn [snd].
  set (r1 := mkReaction x1 this (next_promise st)).
  set (st1 := with_copy (priv_value o) (registered r1 st)).
  assert (H1 : heap st1 !! this = Some o) by now apply lookup_with_copy.
  rewrite (replace_promise_run _ x2 _ _ H1). cbn [snd].
  set (r2 := mkReaction x2 this (next_promise st1)).
  set (st2 := with_copy (priv_value o) (registered r2 st1)).
  assert (H2 : heap st2 !! this = Some o) by now apply lookup_with_copy.
  assert (R2 : reactions st2 = reactions st ++ [r1; r2]).
  { unfold st2. rewrite reactions_with_copy. cbn. unfold st1.
    rewrite reactions_with_copy. cbn. now rewrite <- app_assoc. }
  assert (S2 : forall v, settle x2 (Fulfilled v) st2
                         = written this (Held v)
                             (set_reactions (reactions st ++ [r1]) st2)).
  { intros v.
    rewrite (settle_one x2 _ st2 (reactions st ++ [r1]) r2 []);
      [| now rewrite <- app_assoc | | constructor | reflexivity].
    - rewrite app_nil_r. cbn.
      now rewrite (setValue_run this (Held v) _ o) by exact H2.
    - apply Forall_app. split; [exact F2|].
      constructor; [exact Hne | constructor]. }
  assert (S1 : forall s, settle x1 s st2
                         = snd (_Option.run_reaction r1 s
                                  (set_reactions (reactions st ++ [r2]) st2))).
  { intros s.
    apply (settle_one x1 s st2 (reactions st) r1 [r2]);
      [exact R2 | exact F1 | | reflexivity].
    constructor; [intros E; now apply Hne | constructor]. }
  split; [exact H2|]. split; [|split].
  - rewrite S2.
    rewrite (settle_last x1 _
               (written this (Held b)
                  (set_reactions (reactions st ++ [r1]) st2))
               (reactions st) r1 eq_refl F1 eq_refl). cbn.
    rewrite (setValue_run this (Held a) _ (sync (Held b))).
    + cbn [snd]. eapply lookup_written_eq. cbn.
      eapply lookup_written_eq, H2.
    + cbn. eapply lookup_written_eq, H2.
  - rewrite S1. cbn.
    rewrite (setValue_run this (Held a) _ o) by exact H2. cbn [snd].
    rewrite (settle_last x2 _
               (written this (Held a)
                  (set_reactions (reactions st ++ [r2]) st2))
               (reactions st) r2 eq_refl F2 eq_refl). cbn.
    rewrite (setValue_run this (Held b) _ (sync (Held a))).
    + cbn [snd]. eapply lookup_written_eq. cbn.
      eapply lookup_written_eq, H2.
    + cbn. eapply lookup_written_eq, H2.
  - rewrite S2.
    rewrite (settle_last x1 _
               (written this (Held b)
                  (set_reactions (reactions st ++ [r1]) st2))
               (reactions st) r1 eq_refl F1 eq_refl). cbn.
    eapply lookup_written_eq, H2.
Qed.

(** [x = some(2)], then [x.replace(p1)] and [x.replace(p2)]: if [p2]
    resolves to [7] and then [p1] to [5], [x] ends as [some(5)]; in the
    other order it ends as [some(7)]. *)
Lemma deferred_replaces_follow_settlement_order_witness :
  let st2 :=
    snd (_Option.replace 0 (VPromise 2)
           (snd (_Option.replace 0 (VPromise 1) x_is_some_2))) in
  heap (settle 1 (Fulfilled (VNumber 5)) (settle 2 (Fulfilled (VNumber 7)) st2))
    !! 0 = Some (mkObj PSome (Held (VNumber 5)))
  /\ heap (settle 2 (Fulfilled (VNumber 7))
            (settle 1 (Fulfilled (VNumber 5)) st2))
       !! 0 = Some (mkObj PSome (Held (VNumber 7))).
Proof.
  assert (F : forall x, Forall (fun r => source r <> x) (reactions x_is_some_2))
    by (intros x; change (reactions x_is_some_2) with (@nil Reaction);
        constructor).
  pose proof (deferred_replaces_follow_settlement_order 0 1 2 (VNumber 5)
                (VNumber 7) VUndefined x_is_some_2 (sync (Held (VNumber 2)))
                eq_refl ltac:(discriminate) (F 1) (F 2))
    as (_ & H12 & H21 & _).
  split; [exact H12 | exact H21].
Defined.

(** ** [none] *)

(** [none()] returns a new instance without calling [#setValue]; the
    instance reports empty ([isNone()] is [true], [isSome()] is [false]),
    [unwrap()] on it throws the [NoneUnwrapped] error, and a following
    [insert(x)] makes it hold [x]. *)
Theorem none_is_empty (x : Value) (st : State) :
  let this := fresh st in
  let st' := with_none st in
  _Option.none st = (Normal (VOption this), st')
  /\ setValue_calls st' = setValue_calls st
  /\ _Option.isNone this st' = (Normal true, st')
  /\ _Option.isSome this st' = (Normal false, st')
  /\ _Option.unwrap this st' = (Thrown NoneUnwrapped_error, st')
  /\ _Option.insert this x st' = (Normal x, written this (Held x) st').
Proof.
  intros this st'. subst this st'.
  pose proof (lookup_fresh_with_none st) as Hl.
  split; [apply none_run|]. split; [reflexivity|].
  split; [now rewrite (isNone_run _ _ _ Hl)|].
  split; [now rewrite (isSome_run _ _ _ Hl)|].
  split.
  - unfold _Option.unwrap. js_run2. reflexivity.
  - unfold _Option.insert. js_run2. reflexivity.
Qed.
